(** * The [prisma version] command: packages/cli/src/Version.ts

    A shallow embedding of the [Version] command class and of the few
    JavaScript built-ins it is written with, followed by the properties
    of the command's report.

    Conventions of the embedding.
    - A JavaScript string is a [string]: a sequence of code units, each
      below 256.  On that range [toLowerCase], the regular-expression
      class [\s] and [JSON.stringify]'s quoting are the finite tables
      written out below.
    - [process.env] is a [gmap string string].
    - An [async] method that may reject is a computation in the monad
      [M]: it threads the process state (the environment and the log of
      calls made to the outside world) and ends in [Returned] or
      [Thrown]. *)

From Stdlib Require Import Ascii NArith.
From stdpp Require Import base option list strings gmap.

Local Open Scope N_scope.
Local Open Scope stdpp_scope.

(** ** JavaScript strings *)

Module JsString.

Definition code (c : ascii) : N := N_of_ascii c.

(** The class [\s] of a JavaScript regular expression, on code units
    below 256: TAB, LF, VT, FF, CR, SPACE and NO-BREAK SPACE. *)
Definition isWhiteSpace (c : ascii) : bool :=
  let n := code c in
  ((9 <=? n) && (n <=? 13)) || (n =? 32) || (n =? 160).

(** [String.prototype.toLowerCase] on one code unit below 256: the
    letters A-Z and the Latin-1 capitals U+00C0-U+00DE, the
    multiplication sign U+00D7 apart, move up by 32. *)
Definition lowerChar (c : ascii) : ascii :=
  let n := code c in
  if ((65 <=? n) && (n <=? 90))
     || ((192 <=? n) && (n <=? 222) && negb (n =? 215))
  then ascii_of_N (n + 32)
  else c.

Fixpoint toLowerCase (s : string) : string :=
  match s with
  | EmptyString => EmptyString
  | String c s' => String (lowerChar c) (toLowerCase s')
  end.

(** [s.replace(/\s+/g, r)]: every maximal run of white space is
    replaced by one copy of [r].  [inRun] tells that the code unit
    before the current one belonged to a run already replaced. *)
Fixpoint replaceRuns (r : string) (inRun : bool) (s : string) : string :=
  match s with
  | EmptyString => EmptyString
  | String c s' =>
      if isWhiteSpace c
      then (if inRun then replaceRuns r true s'
            else r +:+ replaceRuns r true s')
      else String c (replaceRuns r false s')
  end.

Definition replaceWhiteSpaceRuns (r s : string) : string :=
  replaceRuns r false s.

Fixpoint repeat (c : ascii) (n : nat) : string :=
  match n with
  | O => EmptyString
  | S n' => String c (repeat c n')
  end.

(** [s.padEnd(target)]: spaces are appended up to [target] code
    units; a string that is long enough is returned as it is. *)
Definition padEnd (s : string) (target : nat) : string :=
  if (target <=? String.length s)%nat then s
  else s +:+ repeat " "%char (target - String.length s).

(** [s.padStart(target)], the mirror image of [padEnd]. *)
Definition padStart (s : string) (target : nat) : string :=
  if (target <=? String.length s)%nat then s
  else repeat " "%char (target - String.length s) +:+ s.

(** [Array.prototype.join]. *)
Fixpoint join (sep : string) (l : list string) : string :=
  match l with
  | [] => EmptyString
  | [x] => x
  | x :: l' => x +:+ sep +:+ join sep l'
  end.

(** A JavaScript string used as a condition: only the empty string
    is falsy. *)
Definition truthy (s : string) : bool :=
  match s with EmptyString => false | _ => true end.

Definition hexDigit (n : N) : ascii :=
  if n <? 10 then ascii_of_N (48 + n) else ascii_of_N (87 + n).

Definition dquoteChar : ascii := ascii_of_N 34.
Definition backslash : ascii := ascii_of_N 92.
Definition dquote : string := String dquoteChar EmptyString.

(** [QuoteJSONString] on one code unit. *)
Definition quoteChar (c : ascii) : string :=
  let n := code c in
  if n =? 8 then "\b"
  else if n =? 9 then "\t"
  else if n =? 10 then "\n"
  else if n =? 12 then "\f"
  else if n =? 13 then "\r"
  else if n =? 34 then String backslash (String dquoteChar EmptyString)
  else if n =? 92 then String backslash (String backslash EmptyString)
  else if n <? 32 then
    "\u00" +:+ String (hexDigit (n / 16)) (String (hexDigit (n mod 16)) EmptyString)
  else String c EmptyString.

Fixpoint quoteBody (s : string) : string :=
  match s with
  | EmptyString => EmptyString
  | String c s' => quoteChar c +:+ quoteBody s'
  end.

Definition quoteJSON (s : string) : string :=
  dquote +:+ quoteBody s +:+ dquote.

End JsString.

(** ** JavaScript objects used as string-to-string maps *)

Module JsObject.

(** The own properties of an object created by the literal [{}], in
    the order of their creation.  Keys are unique. *)
Definition t : Type := list (string * string).

Definition empty : t := [].

Fixpoint get (o : t) (k : string) : option string :=
  match o with
  | [] => None
  | (k', v) :: o' => if String.eqb k' k then Some v else get o' k
  end.

(** Writing an own data property: an existing key keeps its place, a
    new key goes last. *)
Fixpoint define (o : t) (k v : string) : t :=
  match o with
  | [] => [(k, v)]
  | (k', v') :: o' =>
      if String.eqb k' k then (k', v) :: o' else (k', v') :: define o' k v
  end.

(** The assignment [o[k] = v] with [v] a string.  The one key that
    [{}] inherits as an accessor is [__proto__]: the assignment then
    runs the setter of [Object.prototype], which ignores a value that
    is neither an object nor [null], and no own property is made.
    Every other inherited property is a writable data property, so the
    assignment makes an own property. *)
Definition set (o : t) (k v : string) : t :=
  if String.eqb k "__proto__" then o else define o k v.

Definition digitValue (c : ascii) : option N :=
  let n := JsString.code c in
  if (48 <=? n) && (n <=? 57) then Some (n - 48) else None.

Fixpoint decimal (acc : N) (s : string) : option N :=
  match s with
  | EmptyString => Some acc
  | String c s' =>
      match digitValue c with
      | Some d => decimal (10 * acc + d) s'
      | None => None
      end
  end.

(** An array index is a key that is the canonical decimal numeral of
    an integer below 2^32 - 1. *)
Definition arrayIndex (k : string) : option N :=
  match k with
  | EmptyString => None
  | String c rest =>
      if (JsString.code c =? 48) && JsString.truthy rest then None
      else match decimal 0 k with
           | Some n => if n <? 4294967295 then Some n else None
           | None => None
           end
  end.

Fixpoint insertIndexed (n : N) (kv : string * string)
         (l : list (N * (string * string))) : list (N * (string * string)) :=
  match l with
  | [] => [(n, kv)]
  | (m, kv') :: l' =>
      if n <? m then (n, kv) :: l else (m, kv') :: insertIndexed n kv l'
  end.

Fixpoint indexed (o : t) : list (N * (string * string)) :=
  match o with
  | [] => []
  | kv :: o' =>
      match arrayIndex kv.1 with
      | Some n => insertIndexed n kv (indexed o')
      | None => indexed o'
      end
  end.

Definition named (o : t) : t :=
  filter (fun kv => arrayIndex kv.1 = None) o.

(** The own properties in the order of [OrdinaryOwnPropertyKeys]:
    array indices in ascending order, then the other keys in the
    order of their creation. *)
Definition entries (o : t) : t := (snd <$> indexed o) ++ named o.

Definition member (indent : string) (kv : string * string) : string :=
  indent +:+ JsString.quoteJSON kv.1 +:+ ": " +:+ JsString.quoteJSON kv.2.

Definition newline : string := String (ascii_of_N 10) EmptyString.

(** [JSON.stringify(o, null, 2)] for an object whose values are
    strings. *)
Definition stringify2 (o : t) : string :=
  match entries o with
  | [] => "{}"
  | es => "{" +:+ newline
          +:+ JsString.join ("," +:+ newline) (member "  " <$> es)
          +:+ newline +:+ "}"
  end.

End JsObject.

(** ** The outside world *)

(** Modelled from the spec: the enumeration of engine roles,
    [BinaryType] of [@prisma/sdk], imported under the name
    [EngineType].  [Version.ts] names [introspectionEngine],
    [migrationEngine], [libqueryEngine] and [prismaFmt]; the query
    engine run as a binary is the fifth.  The roles are declared in the
    order in which the spec lists them: query engine (binary, then
    Node-API library), migration engine, introspection engine, format
    engine. *)
Inductive EngineType : Type :=
| queryEngine
| libqueryEngine
| migrationEngine
| introspectionEngine
| prismaFmt.

#[global] Instance EngineType_eq_dec : EqDecision EngineType.
Proof. solve_decision. Defined.

(** The position of a role in the declaration. *)
Definition declIndex (r : EngineType) : nat :=
  match r with
  | queryEngine => 0
  | libqueryEngine => 1
  | migrationEngine => 2
  | introspectionEngine => 3
  | prismaFmt => 4
  end.

Definition isQueryRole (r : EngineType) : bool :=
  match r with
  | queryEngine | libqueryEngine => true
  | _ => false
  end.

(** A thrown value (the message of the [Error]). *)
Definition exn : Type := string.

Inductive outcome (A : Type) : Type :=
| Returned (a : A)
| Thrown (e : exn).
Arguments Returned {A} a.
Arguments Thrown {A} e.

(** [interface EngineInfo]. *)
Record EngineInfo : Type := {
  path : string;
  version : string;
  fromEnvVar : option string;
}.

(** What the command reads of a generator of the parsed schema, and of
    the parsed configuration. *)
Record GeneratorConfig : Type := {
  generatorName : string;
  previewFeatures : list string;
}.

Record ConfigMetaFormat : Type := {
  generators : list GeneratorConfig;
}.

(** The flags that [parse] reads of the parsed command line. *)
Record Args : Type := {
  argHelp : bool;
  argJson : bool;
}.

(** A call that leaves the process: file system, child processes,
    configuration loading. *)
Inductive Call : Type :=
| CallLoadEnvFile
| CallGetPlatform
| CallExistsSync (p : string)
| CallResolveBinary (r : EngineType)
| CallGetVersion (p : string) (r : EngineType)
| CallGetClientVersion
| CallGetSchemaPath
| CallGetSchema
| CallGetConfig (datamodel : string).

(** Everything the command imports or reads from its surroundings:
    the constants of [package.json], the table [engineEnvVarMap], and
    the answers of the collaborators during one invocation. *)
Record World : Type := {
  packageName : string;
  packageVersion : string;
  enginesDependency : string;
  studioDependency : string;
  helpText : string;
  boldRed : string -> string;
  engineEnvVarMap : EngineType -> string;
  arg : list string -> Args + exn;
  loadEnvFile : gmap string string -> outcome (gmap string string);
  getPlatform : outcome string;
  getCliQueryEngineType : EngineType;
  existsSync : string -> bool;
  resolveBinary : EngineType -> outcome string;
  getVersion : string -> EngineType -> outcome string;
  getInstalledPrismaClientVersion : outcome (option string);
  getSchemaPath : outcome (option string);
  getSchema : outcome string;
  getConfig : string -> outcome ConfigMetaFormat;
  cwd : string;
  relative : string -> string -> string;
}.

(** ** The monad of the command's methods *)

Record ProcState : Type := {
  env : gmap string string;
  calls : list Call;
}.

Definition M (A : Type) : Type := ProcState -> outcome A * ProcState.

Definition ret {A} (a : A) : M A := fun s => (Returned a, s).

Definition throw {A} (e : exn) : M A := fun s => (Thrown e, s).

Definition bind {A B} (m : M A) (k : A -> M B) : M B :=
  fun s =>
    match m s with
    | (Returned a, s') => k a s'
    | (Thrown e, s') => (Thrown e, s')
    end.

(** [try { m } catch (e) { h e }]. *)
Definition tryCatch {A} (m : M A) (h : exn -> M A) : M A :=
  fun s =>
    match m s with
    | (Returned a, s') => (Returned a, s')
    | (Thrown e, s') => h e s'
    end.

Declare Scope js_scope.
Delimit Scope js_scope with js.
Notation "x <- m ;; k" := (bind m (fun x => k))
  (at level 100, m at next level, right associativity) : js_scope.

(** A call to the outside: it is logged, and answers [r]. *)
Definition call {A} (c : Call) (r : outcome A) : M A :=
  fun s => (r, {| env := env s; calls := calls s ++ [c] |}).

(** [process.env[k]]. *)
Definition getenv (k : string) : M (option string) :=
  fun s => (Returned (env s !! k), s).

Definition setenv (e : gmap string string) : M unit :=
  fun s => (Returned tt, {| env := e; calls := calls s |}).

(** ** The command *)

Local Open Scope js_scope.

(** A row of the report: [[label, value]].  [printTable] reads the
    elements 0 and 1 of a row and [parse] builds every row with
    exactly these two. *)
Definition Row : Type := (string * string)%type.

(** [function slugify(str)]: [str.toString().toLowerCase().replace(/\s+/g, '-')]. *)
Definition slugify (str : string) : string :=
  JsString.replaceWhiteSpaceRuns "-" (JsString.toLowerCase str).

(** [s.split('.')]: the pieces between the dots, at least one. *)
Fixpoint splitDot (s : string) : list string :=
  match s with
  | EmptyString => [EmptyString]
  | String c s' =>
      if Ascii.eqb c "."%char then EmptyString :: splitDot s'
      else match splitDot s' with
           | x :: r => String c x :: r
           | [] => [String c EmptyString]
           end
  end.

(** [a.pop()] on the array of a [split], which is never empty. *)
Definition pop (a : list string) : string := List.last a EmptyString.

(** The result of [parse]: [string | Error]. *)
Inductive ParseResult : Type :=
| Output (s : string)
| HelpError (message : string).

Module Version.
Section WithWorld.

Context (w : World).

Definition newline : string := JsObject.newline.

(** [public help(error?: string)]. *)
Definition help (error : option string) : ParseResult :=
  match error with
  | Some e =>
      if JsString.truthy e
      then HelpError (newline +:+ boldRed w "!" +:+ " " +:+ e
                      +:+ newline +:+ helpText w)
      else Output (helpText w)
  | None => Output (helpText w)
  end.

(** [private printTable(rows, json = false)]. *)
Definition maxPad (rows : list Row) : nat :=
  foldl (fun acc curr => Nat.max acc (String.length curr.1)) 0%nat rows.

Definition printTable (rows : list Row) (json : bool) : string :=
  if json then
    let result :=
      foldl (fun acc '(name, value) => JsObject.set acc (slugify name) value)
            JsObject.empty rows in
    JsObject.stringify2 result
  else
    JsString.join newline
      ((fun '(l, r) =>
          JsString.padEnd l (maxPad rows) +:+ " : " +:+ r) <$> rows).

(** [private printEngineInfo({ path: absolutePath, version, fromEnvVar })]. *)
Definition printEngineInfo (info : EngineInfo) : string :=
  let resolved :=
    match fromEnvVar info with
    | Some v => if JsString.truthy v then ", resolved by " +:+ v else ""
    | None => ""
    end in
  version info +:+ " (at " +:+ relative w (cwd w) (path info)
    +:+ resolved +:+ ")".

(** [private async resolveEngine(engineName)]. *)
Definition resolveEngine (engineName : EngineType) : M EngineInfo :=
  let envVar := engineEnvVarMap w engineName in
  pathFromEnv <- getenv envVar ;;
  usable <-
    match pathFromEnv with
    | Some p =>
        if JsString.truthy p
        then call (CallExistsSync p) (Returned (existsSync w p))
        else ret false
    | None => ret false
    end ;;
  match pathFromEnv, usable with
  | Some p, true =>
      version <- call (CallGetVersion p engineName) (getVersion w p engineName) ;;
      ret {| version := version; path := p; fromEnvVar := Some envVar |}
  | _, _ =>
      enginePath <- call (CallResolveBinary engineName) (resolveBinary w engineName) ;;
      version <- call (CallGetVersion enginePath engineName)
                      (getVersion w enginePath engineName) ;;
      ret {| path := enginePath; version := version; fromEnvVar := None |}
  end.

(** [private async getFeatureFlags(schemaPath)]. *)
Definition getFeatureFlags (schemaPath : option string) : M (list string) :=
  match schemaPath with
  | None => ret []
  | Some sp =>
      if negb (JsString.truthy sp) then ret []
      else
        tryCatch
          (datamodel <- call CallGetSchema (getSchema w) ;;
           config <- call (CallGetConfig datamodel) (getConfig w datamodel) ;;
           match List.find (fun g => (0 <? length (previewFeatures g))%nat)
                           (generators config) with
           | Some generator => ret (previewFeatures generator)
           | None => ret []
           end)
          (fun e => ret [])
  end.

Definition queryEngineLabel : string :=
  "Query Engine" +:+
    (if decide (getCliQueryEngineType w = libqueryEngine)
     then " (Node-API)" else " (Binary)").

(** [loadEnvFile(undefined, true)]: the variables of the [.env]
    files are added to [process.env]. *)
Definition loadEnv : M unit :=
  loaded <- (fun st => call CallLoadEnvFile (loadEnvFile w (env st)) st) ;;
  setenv loaded.

(** The body of [parse] from [loadEnvFile] to the last change of
    [rows]. *)
Definition rows : M (list Row) :=
  _ <- loadEnv ;;
  platform <- call CallGetPlatform (getPlatform w) ;;
  let cliQueryEngineType := getCliQueryEngineType w in
  introspectionEngine <- resolveEngine introspectionEngine ;;
  migrationEngine <- resolveEngine migrationEngine ;;
  queryEngine <- resolveEngine cliQueryEngineType ;;
  fmtEngine <- resolveEngine prismaFmt ;;
  prismaClientVersion <- call CallGetClientVersion (getInstalledPrismaClientVersion w) ;;
  let rows :=
    [ (packageName w, packageVersion w);
      ("@prisma/client", default "Not found" prismaClientVersion);
      ("Current platform", platform);
      (queryEngineLabel, printEngineInfo queryEngine);
      ("Migration Engine", printEngineInfo migrationEngine);
      ("Introspection Engine", printEngineInfo introspectionEngine);
      ("Format Engine", printEngineInfo fmtEngine);
      ("Default Engines Hash", pop (splitDot (enginesDependency w)));
      ("Studio", studioDependency w) ] in
  schemaPath <- call CallGetSchemaPath (getSchemaPath w) ;;
  featureFlags <- getFeatureFlags schemaPath ;;
  if (0 <? length featureFlags)%nat
  then ret (rows ++ [("Preview Features", JsString.join ", " featureFlags)])
  else ret rows.

(** [async parse(argv)]. *)
Definition parse (argv : list string) : M ParseResult :=
  match arg w argv with
  | inr message => ret (help (Some message))
  | inl args =>
      if argHelp args then ret (help None)
      else
        rs <- rows ;;
        ret (Output (printTable rs (argJson args)))
  end.

End WithWorld.
End Version.

(** ** A sample world

    One concrete installation, used to run the command inside the
    development: the query engine is overridden through its variable,
    the other engines are the bundled ones, and the schema declares two
    generators. *)

Module Sample.

Fixpoint splitSlash (s : string) : list string :=
  match s with
  | EmptyString => [EmptyString]
  | String c s' =>
      if Ascii.eqb c "/"%char then EmptyString :: splitSlash s'
      else match splitSlash s' with
           | x :: r => String c x :: r
           | [] => [String c EmptyString]
           end
  end.

Fixpoint dropCommon (a b : list string) : list string * list string :=
  match a, b with
  | x :: a', y :: b' => if String.eqb x y then dropCommon a' b' else (a, b)
  | _, _ => (a, b)
  end.

(** [path.relative] on two normalised absolute POSIX paths. *)
Definition posixRelative (from to : string) : string :=
  let '(up, down) := dropCommon (splitSlash from) (splitSlash to) in
  JsString.join "/" (((fun _ => "..") <$> up) ++ down).

Definition envVarOf (r : EngineType) : string :=
  match r with
  | queryEngine => "PRISMA_QUERY_ENGINE_BINARY"
  | libqueryEngine => "PRISMA_QUERY_ENGINE_LIBRARY"
  | migrationEngine => "PRISMA_MIGRATION_ENGINE_BINARY"
  | introspectionEngine => "PRISMA_INTROSPECTION_ENGINE_BINARY"
  | prismaFmt => "PRISMA_FMT_BINARY"
  end.

Definition bundled (r : EngineType) : string :=
  match r with
  | queryEngine => "/usr/local/bin/query-engine"
  | libqueryEngine => "/usr/local/bin/libquery_engine.so.node"
  | migrationEngine => "/usr/local/bin/migration-engine"
  | introspectionEngine => "/usr/local/bin/introspection-engine"
  | prismaFmt => "/usr/local/bin/prisma-fmt"
  end.

Definition parseArgs (argv : list string) : Args + exn :=
  match argv with
  | [] => inl {| argHelp := false; argJson := false |}
  | ["--json"] => inl {| argHelp := false; argJson := true |}
  | ["--help"] | ["-h"] => inl {| argHelp := true; argJson := false |}
  | a :: _ => inr ("unknown or unexpected option: " +:+ a)
  end.

Definition make (probe : string -> EngineType -> outcome string)
           (schemaPath : option string) (schema : outcome string) : World := {|
  packageName := "prisma";
  packageVersion := "3.8.0";
  enginesDependency := "3.8.0-43.34df67547cf5598f5a6cd3eb45f14ee70c3fb86f";
  studioDependency := "0.452.0";
  helpText := "Print current version of Prisma components";
  boldRed := fun s => s;
  engineEnvVarMap := envVarOf;
  arg := parseArgs;
  loadEnvFile := fun e => Returned e;
  getPlatform := Returned "debian-openssl-1.1.x";
  getCliQueryEngineType := queryEngine;
  existsSync := fun p => bool_decide (p = "/opt/custom/qe");
  resolveBinary := fun r => Returned (bundled r);
  getVersion := probe;
  getInstalledPrismaClientVersion := Returned None;
  getSchemaPath := Returned schemaPath;
  getSchema := schema;
  getConfig := fun _ => Returned {| generators :=
    [ {| generatorName := "docs"; previewFeatures := [] |};
      {| generatorName := "client";
         previewFeatures := ["fullTextSearch"; "interactiveTransactions"] |};
      {| generatorName := "other"; previewFeatures := ["dataProxy"] |} ] |};
  cwd := "/usr/local/bin";
  relative := posixRelative;
|}.

Definition probeOk (p : string) (r : EngineType) : outcome string :=
  if String.eqb p "/opt/custom/qe" then Returned "3.1.0" else Returned "4.0.0".

Definition schemaFile : string := "/srv/app/prisma/schema.prisma".

Definition world : World :=
  make probeOk (Some schemaFile) (Returned "generator client { }").

(** The same installation with a format engine that cannot be run. *)
Definition brokenFmt : World :=
  make (fun p r => if decide (r = prismaFmt) then Thrown "spawn ENOENT"
                   else probeOk p r)
       (Some schemaFile) (Returned "generator client { }").

(** The same installation with a schema that cannot be read. *)
Definition brokenSchema : World :=
  make probeOk (Some schemaFile) (Thrown "EACCES").

(** The same installation outside of any project. *)
Definition noSchema : World :=
  make probeOk None (Thrown "ENOENT").

Definition start : ProcState := {|
  env := {[ "PRISMA_QUERY_ENGINE_BINARY" := "/opt/custom/qe" ]};
  calls := [];
|}.

(** A process started with the override variable set to nothing. *)
Definition startEmpty : ProcState := {|
  env := {[ "PRISMA_QUERY_ENGINE_BINARY" := "" ]};
  calls := [];
|}.

End Sample.

(** ** Notions used in the statements *)

(** The [EngineInfo] that [resolveEngine] builds once the binary is
    located at [p] under the tag [tag]: the probe of [p], or its
    failure. *)
Definition probed (w : World) (r : EngineType) (p : string)
           (tag : option string) : outcome EngineInfo :=
  match getVersion w p r with
  | Returned v => Returned {| path := p; version := v; fromEnvVar := tag |}
  | Thrown e => Thrown e
  end.

(** What [resolveEngine] falls back to: the path of the default
    resolver, probed and left without a tag. *)
Definition defaultEngine (w : World) (r : EngineType) : outcome EngineInfo :=
  match resolveBinary w r with
  | Returned d => probed w r d None
  | Thrown e => Thrown e
  end.

(** The result of [resolveEngine] in a process whose environment is [e]. *)
Definition engineInfoOf (w : World) (e : gmap string string)
           (r : EngineType) : outcome EngineInfo :=
  (Version.resolveEngine w r {| env := e; calls := [] |}).1.

(** The calls [resolveEngine] makes in a process whose environment is [e]. *)
Definition engineCalls (w : World) (e : gmap string string)
           (r : EngineType) : list Call :=
  calls (Version.resolveEngine w r {| env := e; calls := [] |}).2.

(** The binary [resolveEngine] settles on in a process whose
    environment is [e], before it is probed: its path and its tag. *)
Definition located (w : World) (e : gmap string string) (r : EngineType)
  : outcome (string * option string) :=
  let fallback :=
    match resolveBinary w r with
    | Returned d => Returned (d, None)
    | Thrown x => Thrown x
    end in
  match e !! engineEnvVarMap w r with
  | Some p =>
      if JsString.truthy p && existsSync w p
      then Returned (p, Some (engineEnvVarMap w r))
      else fallback
  | None => fallback
  end.

(** The roles [parse] resolves, in the order of its calls. *)
Definition resolvedRoles (w : World) : list EngineType :=
  [introspectionEngine; migrationEngine; getCliQueryEngineType w; prismaFmt].

(** The generators of the schema as [getFeatureFlags] gets them: those
    of the parsed configuration, none when the schema cannot be read or
    parsed. *)
Definition loadedGenerators (w : World) : list GeneratorConfig :=
  match getSchema w with
  | Returned d =>
      match getConfig w d with
      | Returned c => generators c
      | Thrown _ => []
      end
  | Thrown _ => []
  end.


(** The calls [getFeatureFlags] makes. *)
Definition featureFlagCalls (w : World) (schemaPath : option string) : list Call :=
  match schemaPath with
  | Some p =>
      if JsString.truthy p
      then CallGetSchema ::
             match getSchema w with
             | Returned d => [CallGetConfig d]
             | Thrown _ => []
             end
      else []
  | None => []
  end.

(** The first generator of [gs] that declares preview features, as
    [getFeatureFlags] looks for it. *)
Definition firstDeclaring (gs : list GeneratorConfig) : option GeneratorConfig :=
  List.find (fun g => (0 <? length (previewFeatures g))%nat) gs.

(** The list [getFeatureFlags] returns for the schema path [schemaPath]. *)
Definition featureFlagsOf (w : World) (schemaPath : option string) : list string :=
  match schemaPath with
  | Some p =>
      if JsString.truthy p
      then match firstDeclaring (loadedGenerators w) with
           | Some g => previewFeatures g
           | None => []
           end
      else []
  | None => []
  end.

(** Follows the spec's words, "left-pad every label to the width
    of the longest label": the text table with the padding put to the
    left of each label. *)
Definition printTableLeftPadded (rows : list Row) : string :=
  JsString.join JsObject.newline
    ((fun '(l, r) =>
        JsString.padStart l (Version.maxPad rows) +:+ " : " +:+ r) <$> rows).

(** The object that [printTable] builds in JSON mode, before it is
    serialised. *)
Definition jsonResult (rows : list Row) : JsObject.t :=
  foldl (fun acc '(name, value) => JsObject.set acc (slugify name) value)
        JsObject.empty rows.

(** Every code unit of [s] satisfies [P]. *)
Fixpoint allChars (P : ascii -> bool) (s : string) : bool :=
  match s with
  | EmptyString => true
  | String c s' => P c && allChars P s'
  end.

(** [s] ends with white space; [init] is the answer for the empty string. *)
Fixpoint endsInWhiteSpace (init : bool) (s : string) : bool :=
  match s with
  | EmptyString => init
  | String c s' => endsInWhiteSpace (JsString.isWhiteSpace c) s'
  end.

Definition startsWithWhiteSpace (s : string) : bool :=
  match s with
  | EmptyString => false
  | String c _ => JsString.isWhiteSpace c
  end.

(** ** Further sample worlds

    Variations of the sample installation, each with one collaborator
    answering differently. *)

Module Scenario.

Definition custom
           (load : gmap string string -> outcome (gmap string string))
           (platform : outcome string)
           (resolve : EngineType -> outcome string)
           (schema : outcome string)
           (config : string -> outcome ConfigMetaFormat) : World := {|
  packageName := packageName Sample.world;
  packageVersion := packageVersion Sample.world;
  enginesDependency := enginesDependency Sample.world;
  studioDependency := studioDependency Sample.world;
  helpText := helpText Sample.world;
  boldRed := boldRed Sample.world;
  engineEnvVarMap := engineEnvVarMap Sample.world;
  arg := arg Sample.world;
  loadEnvFile := load;
  getPlatform := platform;
  getCliQueryEngineType := getCliQueryEngineType Sample.world;
  existsSync := existsSync Sample.world;
  resolveBinary := resolve;
  getVersion := getVersion Sample.world;
  getInstalledPrismaClientVersion := getInstalledPrismaClientVersion Sample.world;
  getSchemaPath := getSchemaPath Sample.world;
  getSchema := schema;
  getConfig := config;
  cwd := cwd Sample.world;
  relative := relative Sample.world;
|}.

(** The format engine is not installed. *)
Definition missingFmt : World :=
  custom (loadEnvFile Sample.world) (getPlatform Sample.world)
         (fun r => if decide (r = prismaFmt) then Thrown "Could not find prisma-fmt"
                   else resolveBinary Sample.world r)
         (getSchema Sample.world) (getConfig Sample.world).

(** Neither the introspection engine nor the format engine is installed. *)
Definition missingTwo : World :=
  custom (loadEnvFile Sample.world) (getPlatform Sample.world)
         (fun r => if decide (r = prismaFmt) then Thrown "Could not find prisma-fmt"
                   else if decide (r = introspectionEngine)
                        then Thrown "Could not find introspection-engine"
                        else resolveBinary Sample.world r)
         (getSchema Sample.world) (getConfig Sample.world).

(** The schema is read, but does not parse. *)
Definition invalidSchema : World :=
  custom (loadEnvFile Sample.world) (getPlatform Sample.world)
         (resolveBinary Sample.world)
         (Returned "generator client {") (fun _ => Thrown "Schema parsing error").


(** The [.env] file of the project overrides the query engine. *)
Definition envFile : World :=
  custom (fun e => Returned (<[ "PRISMA_QUERY_ENGINE_BINARY" := "/opt/custom/qe" ]> e))
         (getPlatform Sample.world) (resolveBinary Sample.world)
         (getSchema Sample.world) (getConfig Sample.world).

(** A process without any override. *)
Definition plain : ProcState := {| env := ∅; calls := [] |}.

End Scenario.

(** ** Classes of code units used in the statements *)

Definition notWhiteSpace (c : ascii) : bool := negb (JsString.isWhiteSpace c).

Definition notDot (c : ascii) : bool := negb (Ascii.eqb c "."%char).


(** The rows of the report of the sample installation. *)
Definition sampleReport : list Row :=
  [ ("prisma", "3.8.0");
    ("@prisma/client", "Not found");
    ("Current platform", "debian-openssl-1.1.x");
    ("Query Engine (Binary)",
     "3.1.0 (at ../../../opt/custom/qe, resolved by PRISMA_QUERY_ENGINE_BINARY)");
    ("Migration Engine", "4.0.0 (at migration-engine)");
    ("Introspection Engine", "4.0.0 (at introspection-engine)");
    ("Format Engine", "4.0.0 (at prisma-fmt)");
    ("Default Engines Hash", "34df67547cf5598f5a6cd3eb45f14ee70c3fb86f");
    ("Studio", "0.452.0");
    ("Preview Features", "fullTextSearch, interactiveTransactions") ].

(** * Properties *)

Local Close Scope N_scope.

(** ** Running the methods *)

(** [resolveEngine] reads the state only through [process.env], leaves
    [process.env] as it is, and adds its calls to the log. *)
Lemma resolveEngine_run (w : World) (r : EngineType) (st : ProcState) :
  Version.resolveEngine w r st =
  (engineInfoOf w (env st) r,
   {| env := env st; calls := calls st ++ engineCalls w (env st) r |}).
Proof.
  unfold engineInfoOf, engineCalls, Version.resolveEngine, bind, getenv, call, ret.
  destruct st as [e cs]; simpl.
  destruct (e !! engineEnvVarMap w r) as [p|]; simpl;
    [destruct (JsString.truthy p); simpl; [destruct (existsSync w p); simpl|]|];
    repeat case_match; simplify_eq/=;
    by rewrite <- ?(assoc_L (++)), ?(right_id_L [] (++)).
Qed.

(** The three ways through [resolveEngine]. *)
Lemma engineInfoOf_override (w : World) (e : gmap string string)
      (r : EngineType) (p : string) :
  e !! engineEnvVarMap w r = Some p ->
  JsString.truthy p = true ->
  existsSync w p = true ->
  engineInfoOf w e r = probed w r p (Some (engineEnvVarMap w r))
  /\ engineCalls w e r = [CallExistsSync p; CallGetVersion p r].
Proof.
  intros He Ht Hx.
  unfold engineInfoOf, engineCalls, Version.resolveEngine, probed, bind, getenv, call, ret.
  simpl. rewrite He; simpl. rewrite Ht; simpl. rewrite Hx; simpl.
  by destruct (getVersion w p r).
Qed.

Lemma engineInfoOf_default (w : World) (e : gmap string string) (r : EngineType) :
  (forall p, e !! engineEnvVarMap w r = Some p ->
             JsString.truthy p = true -> existsSync w p = false) ->
  engineInfoOf w e r = defaultEngine w r.
Proof.
  intros Hno.
  unfold engineInfoOf, Version.resolveEngine, defaultEngine, probed, bind, getenv, call, ret.
  simpl. destruct (e !! engineEnvVarMap w r) as [p|] eqn:He; simpl.
  - destruct (JsString.truthy p) eqn:Ht; simpl.
    + rewrite (Hno p eq_refl Ht); simpl.
      destruct (resolveBinary w r) as [d|]; simpl; [|done].
      by destruct (getVersion w d r).
    + destruct (resolveBinary w r) as [d|]; simpl; [|done].
      by destruct (getVersion w d r).
  - destruct (resolveBinary w r) as [d|]; simpl; [|done].
    by destruct (getVersion w d r).
Qed.

Lemma truthy_nonempty (s : string) : JsString.truthy s = true <-> s <> "".
Proof. destruct s; simpl; split; congruence. Qed.

(** ** The locator *)

(** C1. For every role, [resolveEngine] returns the path named by the
    role's environment variable, tagged with the variable's name, when
    the variable is set and its path exists; when the variable is unset
    or its path does not exist, it returns the default resolver's path
    without a tag; and a result carries the tag exactly in the first
    case.  The probe of the located path is part of the method: where
    the probe fails, the method fails with it.  [existsSync] answers
    [false] on the empty path, as Node's [fs.existsSync] does. *)
Theorem resolveEngine_override_or_default
        (w : World) (r : EngineType) (st : ProcState) :
  existsSync w "" = false ->
  let var := engineEnvVarMap w r in
  (forall p, env st !! var = Some p -> existsSync w p = true ->
     (Version.resolveEngine w r st).1 = probed w r p (Some var))
  /\ ((forall p, env st !! var = Some p -> existsSync w p = false) ->
     (Version.resolveEngine w r st).1 = defaultEngine w r)
  /\ (forall info, (Version.resolveEngine w r st).1 = Returned info ->
     (fromEnvVar info = Some var
      /\ env st !! var = Some (path info) /\ existsSync w (path info) = true)
     \/ (fromEnvVar info = None
      /\ resolveBinary w r = Returned (path info)
      /\ forall p, env st !! var = Some p -> existsSync w p = false)).
Proof.
  intros Hempty var. rewrite resolveEngine_run. simpl.
  assert (Hover : forall p, env st !! var = Some p -> existsSync w p = true ->
                            engineInfoOf w (env st) r = probed w r p (Some var)).
  { intros p He Hx. apply engineInfoOf_override; [done| |done].
    apply truthy_nonempty. intros ->. congruence. }
  assert (Hdef : (forall p, env st !! var = Some p -> existsSync w p = false) ->
                 engineInfoOf w (env st) r = defaultEngine w r).
  { intros Hno. apply engineInfoOf_default. eauto. }
  split; [exact Hover|]. split; [exact Hdef|].
  intros info Hinfo.
  destruct (env st !! var) as [p|] eqn:He.
  - destruct (existsSync w p) eqn:Hx.
    + left. rewrite (Hover p eq_refl Hx) in Hinfo.
      unfold probed in Hinfo. destruct (getVersion w p r); simplify_eq/=. done.
    + right. rewrite Hdef in Hinfo by (intros ? [= <-]; done).
      unfold defaultEngine, probed in Hinfo.
      destruct (resolveBinary w r) as [d|]; [|done].
      destruct (getVersion w d r); simplify_eq/=.
      split; [done|]. split; [done|]. by intros ? [= <-].
  - right. rewrite Hdef in Hinfo by done.
    unfold defaultEngine, probed in Hinfo.
    destruct (resolveBinary w r) as [d|]; [|done].
    destruct (getVersion w d r); simplify_eq/=. done.
Qed.

Lemma resolveEngine_override_or_default_witness :
  (Version.resolveEngine Sample.world queryEngine Sample.start).1 =
    Returned {| path := "/opt/custom/qe"; version := "3.1.0";
                fromEnvVar := Some "PRISMA_QUERY_ENGINE_BINARY" |}
  /\ (Version.resolveEngine Sample.world migrationEngine Sample.start).1 =
    Returned {| path := "/usr/local/bin/migration-engine"; version := "4.0.0";
                fromEnvVar := None |}.
Proof.
  split.
  - exact (proj1 (resolveEngine_override_or_default
                    Sample.world queryEngine Sample.start eq_refl)
                 "/opt/custom/qe" eq_refl eq_refl).
  - apply (proj1 (proj2 (resolveEngine_override_or_default
                    Sample.world migrationEngine Sample.start eq_refl))).
    intros p Hp. vm_compute in Hp. discriminate Hp.
Defined.

(** C10. A role's variable set to the empty string counts as unset:
    [existsSync] is not called, and the result is the default
    resolver's path, probed and untagged.  The calls added to the log
    are the one to the default resolver and, when it answers, the
    probe. *)
Theorem resolveEngine_empty_variable
        (w : World) (r : EngineType) (st : ProcState) :
  env st !! engineEnvVarMap w r = Some "" ->
  (Version.resolveEngine w r st).1 = defaultEngine w r
  /\ calls (Version.resolveEngine w r st).2 =
     calls st ++ CallResolveBinary r ::
       match resolveBinary w r with
       | Returned d => [CallGetVersion d r]
       | Thrown _ => []
       end
  /\ env (Version.resolveEngine w r st).2 = env st.
Proof.
  intros He.
  unfold Version.resolveEngine, defaultEngine, probed, bind, getenv, call, ret.
  rewrite He; simpl.
  destruct (resolveBinary w r) as [d|]; simpl; [|done].
  destruct (getVersion w d r); simpl; by rewrite <- (assoc_L (++)).
Qed.

Lemma resolveEngine_empty_variable_witness :
  (Version.resolveEngine Sample.world queryEngine Sample.startEmpty).1 =
    Returned {| path := "/usr/local/bin/query-engine"; version := "4.0.0";
                fromEnvVar := None |}
  /\ calls (Version.resolveEngine Sample.world queryEngine Sample.startEmpty).2 =
     [CallResolveBinary queryEngine;
      CallGetVersion "/usr/local/bin/query-engine" queryEngine].
Proof.
  destruct (resolveEngine_empty_variable
              Sample.world queryEngine Sample.startEmpty eq_refl) as (H1 & H2 & _).
  split; [exact H1 | exact H2].
Defined.

(** ** The display value of an engine *)

Lemma append_cons (c : ascii) (a b : string) :
  String c a +:+ b = String c (a +:+ b).
Proof. reflexivity. Qed.

Lemma append_assoc (a b c : string) : (a +:+ b) +:+ c = a +:+ (b +:+ c).
Proof.
  induction a as [|x a IH]; [done|].
  by rewrite !append_cons, IH.
Qed.

Lemma append_empty_r (a : string) : a +:+ "" = a.
Proof.
  induction a as [|x a IH]; [done|].
  by rewrite append_cons, IH.
Qed.

(** C2. The row value of a resolved engine is the version followed by
    the path relative to the working directory, with the suffix
    [, resolved by VAR] when the role's variable overrode the default
    (it is set, not empty, and names an existing path) and without it
    otherwise.  The names in [engineEnvVarMap] are not empty. *)
Theorem printEngineInfo_format
        (w : World) (r : EngineType) (st : ProcState) (info : EngineInfo) :
  engineEnvVarMap w r <> "" ->
  (Version.resolveEngine w r st).1 = Returned info ->
  let var := engineEnvVarMap w r in
  let overridden :=
    exists p, env st !! var = Some p /\ p <> "" /\ existsSync w p = true in
  (overridden ->
   Version.printEngineInfo w info =
     version info +:+ " (at " +:+ relative w (cwd w) (path info)
       +:+ ", resolved by " +:+ var +:+ ")")
  /\ (~ overridden ->
   Version.printEngineInfo w info =
     version info +:+ " (at " +:+ relative w (cwd w) (path info) +:+ ")").
Proof.
  intros Hvar Hinfo var overridden.
  rewrite resolveEngine_run in Hinfo; simpl in Hinfo.
  split.
  - intros (p & He & Hp & Hx).
    destruct (engineInfoOf_override w (env st) r p He) as [Hi _];
      [by apply truthy_nonempty | done |].
    rewrite Hi in Hinfo. unfold probed in Hinfo.
    destruct (getVersion w p r); simplify_eq/=.
    unfold Version.printEngineInfo; simpl.
    apply truthy_nonempty in Hvar. rewrite Hvar.
    by rewrite append_assoc.
  - intros Hno.
    rewrite engineInfoOf_default in Hinfo.
    + unfold defaultEngine, probed in Hinfo.
      destruct (resolveBinary w r) as [d|]; [|done].
      by destruct (getVersion w d r); simplify_eq/=.
    + intros p He Ht. destruct (existsSync w p) eqn:Hx; [|done].
      exfalso. apply Hno. exists p. by rewrite <- truthy_nonempty.
Qed.

Lemma printEngineInfo_format_witness :
  Version.printEngineInfo Sample.world
    {| path := "/opt/custom/qe"; version := "3.1.0";
       fromEnvVar := Some "PRISMA_QUERY_ENGINE_BINARY" |} =
  "3.1.0 (at ../../../opt/custom/qe, resolved by PRISMA_QUERY_ENGINE_BINARY)".
Proof.
  refine (proj1 (printEngineInfo_format Sample.world queryEngine Sample.start
                   _ _ eq_refl) _).
  - discriminate.
  - exists "/opt/custom/qe". split; [reflexivity|]. split; [discriminate|reflexivity].
Defined.

(** ** Failure of a probe *)

Lemma engineInfoOf_located (w : World) (e : gmap string string) (r : EngineType) :
  engineInfoOf w e r =
  match located w e r with
  | Returned (p, tag) => probed w r p tag
  | Thrown x => Thrown x
  end.
Proof.
  unfold located.
  destruct (e !! engineEnvVarMap w r) as [p|] eqn:He.
  - destruct (JsString.truthy p) eqn:Ht; simpl.
    + destruct (existsSync w p) eqn:Hx.
      * by destruct (engineInfoOf_override w e r p He Ht Hx) as [-> _].
      * rewrite engineInfoOf_default; [|intros ? ? ?; by simplify_eq].
        unfold defaultEngine. by destruct (resolveBinary w r).
    + rewrite engineInfoOf_default; [|intros ? ? ?; simplify_eq; congruence].
      unfold defaultEngine. by destruct (resolveBinary w r).
  - rewrite engineInfoOf_default; [|intros ? ? ?; by simplify_eq].
    unfold defaultEngine. by destruct (resolveBinary w r).
Qed.

#[local] Arguments Version.resolveEngine : simpl never.
#[local] Arguments Version.getFeatureFlags : simpl never.

(** C3. When the probe of the binary located for one of the resolved
    roles fails, [parse] throws: no report is returned, in text mode or
    in JSON mode, whatever the other engines answer. *)
Theorem probe_failure_aborts
        (w : World) (argv : list string) (st : ProcState) (args : Args)
        (e' : gmap string string) (r : EngineType)
        (p : string) (tag : option string) (x : exn) :
  arg w argv = inl args ->
  argHelp args = false ->
  loadEnvFile w (env st) = Returned e' ->
  r ∈ resolvedRoles w ->
  located w e' r = Returned (p, tag) ->
  getVersion w p r = Thrown x ->
  exists x', (Version.parse w argv st).1 = Thrown x'.
Proof.
  intros Harg Hhelp Hload Hr Hloc Hprobe.
  assert (Hfail : engineInfoOf w e' r = Thrown x).
  { rewrite engineInfoOf_located, Hloc. unfold probed. by rewrite Hprobe. }
  unfold Version.parse. rewrite Harg, Hhelp.
  unfold Version.rows, Version.loadEnv, bind, call, setenv. simpl.
  rewrite Hload. simpl.
  destruct (getPlatform w) as [platform|]; simpl; [|by eauto].
  rewrite resolveEngine_run; simpl.
  destruct (engineInfoOf w e' introspectionEngine) as [ie|] eqn:Hie; simpl; [|by eauto].
  rewrite resolveEngine_run; simpl.
  destruct (engineInfoOf w e' migrationEngine) as [me|] eqn:Hme; simpl; [|by eauto].
  rewrite resolveEngine_run; simpl.
  destruct (engineInfoOf w e' (getCliQueryEngineType w)) as [qe|] eqn:Hqe; simpl; [|by eauto].
  rewrite resolveEngine_run; simpl.
  destruct (engineInfoOf w e' prismaFmt) as [fe|] eqn:Hfe; simpl; [|by eauto].
  exfalso. unfold resolvedRoles in Hr.
  repeat (apply elem_of_cons in Hr as [-> | Hr]; [congruence|]).
  by apply elem_of_nil in Hr.
Qed.

Lemma probe_failure_aborts_witness :
  exists x', (Version.parse Sample.brokenFmt ["--json"] Sample.start).1 = Thrown x'.
Proof.
  apply (probe_failure_aborts Sample.brokenFmt ["--json"] Sample.start
           {| argHelp := false; argJson := true |}
           (env Sample.start) prismaFmt "/usr/local/bin/prisma-fmt" None "spawn ENOENT").
  - reflexivity.
  - reflexivity.
  - reflexivity.
  - unfold resolvedRoles. apply list_elem_of_In. simpl. tauto.
  - vm_compute. reflexivity.
  - reflexivity.
Defined.

(** ** The feature-flag reader *)

Lemma find_first {A} (f : A -> bool) (pre : list A) (g : A) (post : list A) :
  Forall (fun a => f a = false) pre ->
  f g = true ->
  List.find f (pre ++ g :: post) = Some g.
Proof.
  intros Hpre Hg. induction Hpre as [|a pre Ha _ IH]; simpl.
  - by rewrite Hg.
  - by rewrite Ha.
Qed.

Lemma find_all_false {A} (f : A -> bool) (l : list A) :
  Forall (fun a => f a = false) l -> List.find f l = None.
Proof.
  induction 1 as [|a l Ha _ IH]; simpl; [done|]. by rewrite Ha.
Qed.

Lemma nonempty_length {A} (l : list A) : (0 <? length l)%nat = true <-> l <> [].
Proof. destruct l; simpl; split; (done || congruence). Qed.

Lemma empty_length {A} (l : list A) : (0 <? length l)%nat = false <-> l = [].
Proof. destruct l; simpl; split; (done || congruence). Qed.

(** C6. [getFeatureFlags] always returns: without a schema path (a
    missing one or an empty one) it returns the empty list at once,
    calling nothing; and a failure to read the schema or to parse the
    configuration becomes the empty list. *)
Theorem getFeatureFlags_never_throws
        (w : World) (schemaPath : option string) (st : ProcState) :
  (exists flags, (Version.getFeatureFlags w schemaPath st).1 = Returned flags)
  /\ Version.getFeatureFlags w None st = (Returned [], st)
  /\ Version.getFeatureFlags w (Some "") st = (Returned [], st)
  /\ (forall x, getSchema w = Thrown x ->
        (Version.getFeatureFlags w schemaPath st).1 = Returned [])
  /\ (forall d x, getSchema w = Returned d -> getConfig w d = Thrown x ->
        (Version.getFeatureFlags w schemaPath st).1 = Returned []).
Proof.
  unfold Version.getFeatureFlags, tryCatch, bind, call, ret.
  repeat split.
  - destruct schemaPath as [p|]; [|by eauto].
    destruct (JsString.truthy p); simpl; [|by eauto].
    destruct (getSchema w) as [d|]; simpl; [|by eauto].
    destruct (getConfig w d) as [c|]; simpl; [|by eauto].
    destruct (find _ _); simpl; by eauto.
  - intros x Hx. destruct schemaPath as [p|]; [|done].
    destruct (JsString.truthy p); simpl; [|done]. by rewrite Hx.
  - intros d x Hd Hx. destruct schemaPath as [p|]; [|done].
    destruct (JsString.truthy p); simpl; [|done]. rewrite Hd; simpl. by rewrite Hx.
Qed.

Lemma getFeatureFlags_never_throws_witness :
  (Version.getFeatureFlags Sample.brokenSchema (Some Sample.schemaFile) Sample.start).1
  = Returned [].
Proof.
  destruct (getFeatureFlags_never_throws
              Sample.brokenSchema (Some Sample.schemaFile) Sample.start)
    as (_ & _ & _ & H & _).
  exact (H "EACCES" eq_refl).
Defined.

(** C7. With a schema path and a configuration that loads,
    [getFeatureFlags] returns the preview features of the first
    generator, in the order of declaration, whose list is not empty:
    that list alone, whatever the later generators declare; and the
    empty list when every generator's list is empty. *)
Theorem getFeatureFlags_first_generator
        (w : World) (p : string) (st : ProcState)
        (d : string) (c : ConfigMetaFormat) :
  p <> "" ->
  getSchema w = Returned d ->
  getConfig w d = Returned c ->
  (forall pre g post,
      generators c = pre ++ g :: post ->
      Forall (fun g' => previewFeatures g' = []) pre ->
      previewFeatures g <> [] ->
      (Version.getFeatureFlags w (Some p) st).1 = Returned (previewFeatures g))
  /\ (Forall (fun g => previewFeatures g = []) (generators c) ->
      (Version.getFeatureFlags w (Some p) st).1 = Returned []).
Proof.
  intros Hp Hd Hc. apply truthy_nonempty in Hp.
  unfold Version.getFeatureFlags, tryCatch, bind, call, ret.
  rewrite Hp; simpl. rewrite Hd; simpl. rewrite Hc; simpl.
  split.
  - intros pre g post Hgs Hpre Hg. rewrite Hgs.
    rewrite (find_first _ pre g post); [done| |by apply nonempty_length].
    eapply Forall_impl; [exact Hpre|]. intros g' Hg'. by apply empty_length.
  - intros Hall. rewrite find_all_false; [done|].
    eapply Forall_impl; [exact Hall|]. intros g' Hg'. by apply empty_length.
Qed.

Lemma getFeatureFlags_first_generator_witness :
  (Version.getFeatureFlags Sample.world (Some Sample.schemaFile) Sample.start).1
  = Returned ["fullTextSearch"; "interactiveTransactions"].
Proof.
  refine (proj1 (getFeatureFlags_first_generator
                   Sample.world Sample.schemaFile Sample.start
                   "generator client { }" _ _ eq_refl eq_refl)
                [ {| generatorName := "docs"; previewFeatures := [] |} ]
                {| generatorName := "client";
                   previewFeatures := ["fullTextSearch"; "interactiveTransactions"] |}
                [ {| generatorName := "other"; previewFeatures := ["dataProxy"] |} ]
                eq_refl _ _).
  - discriminate.
  - repeat constructor.
  - discriminate.
Defined.

Lemma getFeatureFlags_run (w : World) (schemaPath : option string) (st : ProcState) :
  Version.getFeatureFlags w schemaPath st =
  (Returned (featureFlagsOf w schemaPath),
   {| env := env st; calls := calls st ++ featureFlagCalls w schemaPath |}).
Proof.
  unfold Version.getFeatureFlags, featureFlagsOf, featureFlagCalls,
    firstDeclaring, loadedGenerators, tryCatch, bind, call, ret.
  destruct st as [e cs]; simpl.
  destruct schemaPath as [p|]; [|by rewrite (right_id_L [] (++))].
  destruct (JsString.truthy p); simpl; [|by rewrite (right_id_L [] (++))].
  destruct (getSchema w) as [d|]; simpl; [|done].
  destruct (getConfig w d) as [c|]; simpl; [|by rewrite <- (assoc_L (++))].
  destruct (find _ _); simpl; by rewrite <- (assoc_L (++)).
Qed.

(** ** The rows of the report *)

(** The outcome of the body of [parse] is settled by [process.env]:
    the log of earlier calls plays no part. *)
Lemma rows_outcome_env (w : World) (e : gmap string string) (cs cs' : list Call) :
  (Version.rows w {| env := e; calls := cs |}).1 =
  (Version.rows w {| env := e; calls := cs' |}).1.
Proof.
  unfold Version.rows, Version.loadEnv, bind, call, setenv. simpl.
  destruct (loadEnvFile w e) as [e'|]; simpl; [|done].
  destruct (getPlatform w) as [platform|]; simpl; [|done].
  rewrite ?resolveEngine_run; simpl.
  destruct (engineInfoOf w e' introspectionEngine) as [ie|]; simpl; [|done].
  rewrite ?resolveEngine_run; simpl.
  destruct (engineInfoOf w e' migrationEngine) as [me|]; simpl; [|done].
  rewrite ?resolveEngine_run; simpl.
  destruct (engineInfoOf w e' (getCliQueryEngineType w)) as [qe|]; simpl; [|done].
  rewrite ?resolveEngine_run; simpl.
  destruct (engineInfoOf w e' prismaFmt) as [fe|]; simpl; [|done].
  destruct (getInstalledPrismaClientVersion w) as [client|]; simpl; [|done].
  destruct (getSchemaPath w) as [sp|]; simpl; [|done].
  rewrite ?getFeatureFlags_run; simpl.
  by destruct (0 <? length (featureFlagsOf w sp))%nat.
Qed.

(** What the body of [parse] returns, when every collaborator answers. *)
Lemma rows_returned (w : World) (st : ProcState) (rs : list Row) :
  (Version.rows w st).1 = Returned rs <->
  exists e' platform client qe me ie fe sp,
    loadEnvFile w (env st) = Returned e'
    /\ getPlatform w = Returned platform
    /\ engineInfoOf w e' introspectionEngine = Returned ie
    /\ engineInfoOf w e' migrationEngine = Returned me
    /\ engineInfoOf w e' (getCliQueryEngineType w) = Returned qe
    /\ engineInfoOf w e' prismaFmt = Returned fe
    /\ getInstalledPrismaClientVersion w = Returned client
    /\ getSchemaPath w = Returned sp
    /\ rs =
       [ (packageName w, packageVersion w);
         ("@prisma/client", default "Not found" client);
         ("Current platform", platform) ]
       ++ [ (Version.queryEngineLabel w, Version.printEngineInfo w qe);
            ("Migration Engine", Version.printEngineInfo w me);
            ("Introspection Engine", Version.printEngineInfo w ie);
            ("Format Engine", Version.printEngineInfo w fe) ]
       ++ [ ("Default Engines Hash", pop (splitDot (enginesDependency w)));
            ("Studio", studioDependency w) ]
       ++ match featureFlagsOf w sp with
          | [] => []
          | flags => [("Preview Features", JsString.join ", " flags)]
          end.
Proof.
  unfold Version.rows, Version.loadEnv, bind, call, setenv. simpl.
  split.
  - destruct (loadEnvFile w (env st)) as [e'|] eqn:Hload; simpl; [|done].
    destruct (getPlatform w) as [platform|] eqn:Hplatform; simpl; [|done].
    rewrite resolveEngine_run; simpl.
    destruct (engineInfoOf w e' introspectionEngine) as [ie|] eqn:Hie; simpl; [|done].
    rewrite resolveEngine_run; simpl.
    destruct (engineInfoOf w e' migrationEngine) as [me|] eqn:Hme; simpl; [|done].
    rewrite resolveEngine_run; simpl.
    destruct (engineInfoOf w e' (getCliQueryEngineType w)) as [qe|] eqn:Hqe;
      simpl; [|done].
    rewrite resolveEngine_run; simpl.
    destruct (engineInfoOf w e' prismaFmt) as [fe|] eqn:Hfe; simpl; [|done].
    destruct (getInstalledPrismaClientVersion w) as [client|] eqn:Hclient;
      simpl; [|done].
    destruct (getSchemaPath w) as [sp|] eqn:Hsp; simpl; [|done].
    rewrite getFeatureFlags_run; simpl.
    intros Hrs. exists e', platform, client, qe, me, ie, fe, sp.
    repeat (split; [done|]).
    destruct (featureFlagsOf w sp); simpl in Hrs; by simplify_eq.
  - intros (e' & platform & client & qe & me & ie & fe & sp
            & -> & -> & Hie & Hme & Hqe & Hfe & -> & -> & ->); simpl.
    rewrite resolveEngine_run; simpl; rewrite Hie; simpl.
    rewrite resolveEngine_run; simpl; rewrite Hme; simpl.
    rewrite resolveEngine_run; simpl; rewrite Hqe; simpl.
    rewrite resolveEngine_run; simpl; rewrite Hfe; simpl.
    rewrite getFeatureFlags_run; simpl.
    by destruct (featureFlagsOf w sp).
Qed.





(** C9. The order of the rows is fixed: the tool's own row, the client
    library's and the platform's; then the engines' rows in the order
    of the roles' declaration (query, migration, introspection,
    format); then the engines hash and Studio; then the feature-flags
    row, if any.  The report is returned, with exactly these rows,
    whenever every collaborator answers; and a second invocation in the
    same world with the same environment ends exactly as the first,
    whatever was called before. *)
Theorem report_order_fixed (w : World) (st : ProcState) :
  (forall rs,
    (Version.rows w st).1 = Returned rs <->
    exists e' platform client qe me ie fe sp,
      loadEnvFile w (env st) = Returned e'
      /\ getPlatform w = Returned platform
      /\ engineInfoOf w e' introspectionEngine = Returned ie
      /\ engineInfoOf w e' migrationEngine = Returned me
      /\ engineInfoOf w e' (getCliQueryEngineType w) = Returned qe
      /\ engineInfoOf w e' prismaFmt = Returned fe
      /\ getInstalledPrismaClientVersion w = Returned client
      /\ getSchemaPath w = Returned sp
      /\ rs =
         [ (packageName w, packageVersion w);
           ("@prisma/client", default "Not found" client);
           ("Current platform", platform) ]
         ++ [ (Version.queryEngineLabel w, Version.printEngineInfo w qe);
              ("Migration Engine", Version.printEngineInfo w me);
              ("Introspection Engine", Version.printEngineInfo w ie);
              ("Format Engine", Version.printEngineInfo w fe) ]
         ++ [ ("Default Engines Hash", pop (splitDot (enginesDependency w)));
              ("Studio", studioDependency w) ]
         ++ match featureFlagsOf w sp with
            | [] => []
            | flags => [("Preview Features", JsString.join ", " flags)]
            end)
  /\ (forall st' argv,
        env st' = env st ->
        (Version.rows w st').1 = (Version.rows w st).1
        /\ (Version.parse w argv st').1 = (Version.parse w argv st).1)
  /\ (isQueryRole (getCliQueryEngineType w) = true ->
        (declIndex (getCliQueryEngineType w) < declIndex migrationEngine
         /\ declIndex migrationEngine < declIndex introspectionEngine
         /\ declIndex introspectionEngine < declIndex prismaFmt)%nat).
Proof.
  split; [intros rs; apply rows_returned|]. split.
  - intros [e cs'] argv Henv. simpl in Henv. destruct st as [e0 cs]. simpl in Henv.
    subst e0. pose proof (rows_outcome_env w e cs' cs) as Hrows.
    split; [exact Hrows|].
    unfold Version.parse.
    destruct (arg w argv) as [args|message]; [|done].
    destruct (argHelp args); [done|].
    unfold bind.
    destruct (Version.rows w {| env := e; calls := cs' |}) as [o1 s1].
    destruct (Version.rows w {| env := e; calls := cs |}) as [o2 s2].
    simpl in Hrows. subst o2. by destruct o1.
  - intros Hq. destruct (getCliQueryEngineType w); simpl in *; (done || lia).
Qed.

Lemma report_order_fixed_witness :
  (Version.rows Sample.world Sample.start).1 =
  Returned
    [ ("prisma", "3.8.0");
      ("@prisma/client", "Not found");
      ("Current platform", "debian-openssl-1.1.x");
      ("Query Engine (Binary)",
       "3.1.0 (at ../../../opt/custom/qe, resolved by PRISMA_QUERY_ENGINE_BINARY)");
      ("Migration Engine", "4.0.0 (at migration-engine)");
      ("Introspection Engine", "4.0.0 (at introspection-engine)");
      ("Format Engine", "4.0.0 (at prisma-fmt)");
      ("Default Engines Hash", "34df67547cf5598f5a6cd3eb45f14ee70c3fb86f");
      ("Studio", "0.452.0");
      ("Preview Features", "fullTextSearch, interactiveTransactions") ]
  /\ (declIndex (getCliQueryEngineType Sample.world) < declIndex migrationEngine
      /\ declIndex migrationEngine < declIndex introspectionEngine
      /\ declIndex introspectionEngine < declIndex prismaFmt)%nat.
Proof.
  destruct (report_order_fixed Sample.world Sample.start) as (Hrows & _ & Hdecl).
  split; [|exact (Hdecl eq_refl)].
  apply Hrows.
  exists (env Sample.start), "debian-openssl-1.1.x", None,
    {| path := "/opt/custom/qe"; version := "3.1.0";
       fromEnvVar := Some "PRISMA_QUERY_ENGINE_BINARY" |},
    {| path := "/usr/local/bin/migration-engine"; version := "4.0.0";
       fromEnvVar := None |},
    {| path := "/usr/local/bin/introspection-engine"; version := "4.0.0";
       fromEnvVar := None |},
    {| path := "/usr/local/bin/prisma-fmt"; version := "4.0.0";
       fromEnvVar := None |},
    (Some Sample.schemaFile).
  repeat split; vm_compute; reflexivity.
Defined.

(** ** The text table *)

Lemma length_append (a b : string) :
  String.length (a +:+ b) = (String.length a + String.length b)%nat.
Proof.
  induction a as [|x a IH]; [done|].
  rewrite append_cons. simpl. by rewrite IH.
Qed.

Lemma length_repeat (c : ascii) (n : nat) : String.length (JsString.repeat c n) = n.
Proof. induction n as [|n IH]; simpl; [done|]. by rewrite IH. Qed.

Lemma padEnd_fits (s : string) (target : nat) :
  (String.length s <= target)%nat ->
  JsString.padEnd s target = s +:+ JsString.repeat " " (target - String.length s).
Proof.
  intros Hle. unfold JsString.padEnd.
  destruct (target <=? String.length s)%nat eqn:Hcmp; [|done].
  apply Nat.leb_le in Hcmp.
  replace (target - String.length s)%nat with 0%nat by lia.
  simpl. by rewrite append_empty_r.
Qed.

Lemma maxPad_from (rows : list Row) (a : nat) :
  foldl (fun acc (curr : Row) => Nat.max acc (String.length curr.1)) a rows =
  Nat.max a (max_list_with (fun row : Row => String.length row.1) rows).
Proof.
  revert a. induction rows as [|row rows IH]; intros a; simpl.
  - lia.
  - rewrite IH. lia.
Qed.

Lemma maxPad_longest (rows : list Row) :
  Version.maxPad rows = max_list_with (fun row : Row => String.length row.1) rows.
Proof. unfold Version.maxPad. rewrite maxPad_from. lia. Qed.

Lemma longest_bound (rows : list Row) (row : Row) :
  row ∈ rows ->
  (String.length row.1 <= max_list_with (fun row : Row => String.length row.1) rows)%nat.
Proof.
  induction 1 as [row rows|row row' rows _ IH]; simpl; lia.
Qed.

Lemma longest_attained (rows : list Row) :
  rows <> [] ->
  exists row, row ∈ rows
    /\ String.length row.1 = max_list_with (fun row : Row => String.length row.1) rows.
Proof.
  induction rows as [|row rows IH]; [done|]. intros _. simpl.
  destruct rows as [|row' rows'].
  - exists row. split; [by left|]. simpl. lia.
  - destruct IH as (r & Hin & Hr); [done|].
    destruct (Nat.max_spec (String.length row.1)
                (max_list_with (fun row : Row => String.length row.1) (row' :: rows')))
      as [[_ ->] | [_ ->]].
    + exists r. split; [by right|done].
    + exists row. split; [by left|done].
Qed.

(** C4, as the code has it.  In text mode every label is padded with
    spaces on its right, up to the length of the longest label of the
    rows, so that the labels are aligned on the left; label and value
    are joined by [" : "], and the rows by line feeds. *)
Theorem printTable_text (rows : list Row) :
  let width := max_list_with (fun row : Row => String.length row.1) rows in
  let padded (row : Row) :=
    row.1 +:+ JsString.repeat " " (width - String.length row.1) in
  Version.printTable rows false =
    JsString.join JsObject.newline
      ((fun row : Row => padded row +:+ " : " +:+ row.2) <$> rows)
  /\ Forall (fun row : Row => String.length (padded row) = width) rows
  /\ Forall (fun row : Row => (String.length row.1 <= width)%nat) rows
  /\ (rows <> [] -> exists row, row ∈ rows /\ String.length row.1 = width).
Proof.
  intros width padded.
  assert (Hle : Forall (fun row : Row => (String.length row.1 <= width)%nat) rows).
  { apply Forall_forall. intros row Hin. by apply longest_bound. }
  split; [|split; [|split; [done|apply longest_attained]]].
  - unfold Version.printTable. f_equal. rewrite maxPad_longest. fold width.
    apply Forall_fmap_ext_1. eapply Forall_impl; [exact Hle|].
    intros [l r] Hl. simpl in *. unfold padded. simpl.
    by rewrite padEnd_fits.
  - eapply Forall_impl; [exact Hle|]. intros row Hl. unfold padded.
    cbv beta in Hl. rewrite length_append, length_repeat. lia.
Qed.

(** C4, as the spec words it, fails: a label shorter than the longest
    one gets its spaces after it, not before it. *)
Lemma printTable_not_left_padded :
  Version.printTable [("a", "1"); ("bcd", "2")] false
    = "a   : 1" +:+ JsObject.newline +:+ "bcd : 2"
  /\ printTableLeftPadded [("a", "1"); ("bcd", "2")]
    = "  a : 1" +:+ JsObject.newline +:+ "bcd : 2"
  /\ Version.printTable [("a", "1"); ("bcd", "2")] false
    <> printTableLeftPadded [("a", "1"); ("bcd", "2")].
Proof.
  split; [reflexivity|]. split; [reflexivity|].
  vm_compute. discriminate.
Qed.

(** ** Slugs *)

Lemma isWhiteSpace_lowerChar (c : ascii) :
  JsString.isWhiteSpace (JsString.lowerChar c) = JsString.isWhiteSpace c.
Proof. destruct c as [[] [] [] [] [] [] [] []]; reflexivity. Qed.

Lemma toLowerCase_append (a b : string) :
  JsString.toLowerCase (a +:+ b) = JsString.toLowerCase a +:+ JsString.toLowerCase b.
Proof.
  induction a as [|x a IH]; [done|].
  rewrite append_cons. simpl. by rewrite IH, append_cons.
Qed.

Lemma allChars_toLowerCase (s : string) :
  allChars JsString.isWhiteSpace (JsString.toLowerCase s)
  = allChars JsString.isWhiteSpace s.
Proof.
  induction s as [|c s IH]; simpl; [done|].
  by rewrite isWhiteSpace_lowerChar, IH.
Qed.

Lemma endsInWhiteSpace_toLowerCase (init : bool) (s : string) :
  endsInWhiteSpace init (JsString.toLowerCase s) = endsInWhiteSpace init s.
Proof.
  revert init. induction s as [|c s IH]; intros init; simpl; [done|].
  by rewrite isWhiteSpace_lowerChar, IH.
Qed.

Lemma startsWithWhiteSpace_toLowerCase (s : string) :
  startsWithWhiteSpace (JsString.toLowerCase s) = startsWithWhiteSpace s.
Proof. destruct s as [|c s]; simpl; [done|]. apply isWhiteSpace_lowerChar. Qed.

Lemma replaceRuns_append (r : string) (inRun : bool) (a b : string) :
  JsString.replaceRuns r inRun (a +:+ b) =
  JsString.replaceRuns r inRun a
    +:+ JsString.replaceRuns r (endsInWhiteSpace inRun a) b.
Proof.
  revert inRun. induction a as [|c a IH]; intros inRun; [done|].
  rewrite append_cons. simpl.
  destruct (JsString.isWhiteSpace c); [destruct inRun|];
    rewrite IH; by rewrite ?append_assoc, ?append_cons.
Qed.

Lemma replaceRuns_in_run (r ws : string) :
  allChars JsString.isWhiteSpace ws = true ->
  JsString.replaceRuns r true ws = "" /\ endsInWhiteSpace true ws = true.
Proof.
  induction ws as [|c ws IH]; simpl; [done|].
  intros [Hc Hws]%andb_prop. rewrite Hc. by apply IH.
Qed.

Lemma replaceRuns_run (r ws : string) :
  ws <> "" ->
  allChars JsString.isWhiteSpace ws = true ->
  JsString.replaceRuns r false ws = r /\ endsInWhiteSpace false ws = true.
Proof.
  destruct ws as [|c ws]; [done|]. intros _. simpl.
  intros [Hc Hws]%andb_prop. rewrite Hc.
  assert (Hall : allChars JsString.isWhiteSpace (String c ws) = true).
  { simpl. by rewrite Hc, Hws. }
  destruct (replaceRuns_in_run r ws Hws) as [-> _].
  destruct (replaceRuns_in_run r (String c ws) Hall) as [_ Hend].
  simpl in Hend. rewrite Hc in Hend. by rewrite append_empty_r.
Qed.

Lemma replaceRuns_fresh (r b : string) :
  startsWithWhiteSpace b = false ->
  JsString.replaceRuns r true b = JsString.replaceRuns r false b.
Proof. destruct b as [|c b]; simpl; [done|]. by intros ->. Qed.

(** A label without white space is only lowercased. *)
Lemma slugify_plain (s : string) :
  allChars (fun c => negb (JsString.isWhiteSpace c)) s = true ->
  slugify s = JsString.toLowerCase s.
Proof.
  unfold slugify, JsString.replaceWhiteSpaceRuns.
  induction s as [|c s IH]; simpl; [done|].
  intros [Hc Hs]%andb_prop. rewrite isWhiteSpace_lowerChar.
  apply negb_true_iff in Hc. rewrite Hc. by rewrite IH.
Qed.

(** A maximal run of white space inside a label becomes one hyphen. *)
Lemma slugify_run (a ws b : string) :
  ws <> "" ->
  allChars JsString.isWhiteSpace ws = true ->
  endsInWhiteSpace false a = false ->
  startsWithWhiteSpace b = false ->
  slugify (a +:+ ws +:+ b) = slugify a +:+ "-" +:+ slugify b.
Proof.
  intros Hne Hws Ha Hb.
  unfold slugify, JsString.replaceWhiteSpaceRuns.
  rewrite !toLowerCase_append, !replaceRuns_append.
  rewrite endsInWhiteSpace_toLowerCase, Ha.
  assert (Hne' : JsString.toLowerCase ws <> "") by (by destruct ws).
  rewrite <- allChars_toLowerCase in Hws.
  destruct (replaceRuns_run "-" _ Hne' Hws) as [-> ->].
  by rewrite replaceRuns_fresh by (by rewrite startsWithWhiteSpace_toLowerCase).
Qed.

Example slugify_query_engine : slugify "Query Engine (Binary)" = "query-engine-(binary)".
Proof. reflexivity. Qed.

(** ** The JSON object *)

Lemma get_define (o : JsObject.t) (k v k' : string) :
  JsObject.get (JsObject.define o k v) k' =
  if String.eqb k k' then Some v else JsObject.get o k'.
Proof.
  induction o as [|[k0 v0] o IH]; simpl.
  - by destruct (String.eqb k k').
  - destruct (String.eqb k0 k) eqn:H0; simpl.
    + apply String.eqb_eq in H0 as ->.
      by destruct (String.eqb k k').
    + rewrite IH. destruct (String.eqb k0 k') eqn:H0'; [|done].
      apply String.eqb_eq in H0' as ->.
      by rewrite String.eqb_sym, H0.
Qed.

Lemma get_set (o : JsObject.t) (k v k' : string) :
  k' <> "__proto__" ->
  JsObject.get (JsObject.set o k v) k' =
  if String.eqb k k' then Some v else JsObject.get o k'.
Proof.
  intros Hk'. unfold JsObject.set.
  destruct (String.eqb k "__proto__") eqn:Hk; [|apply get_define].
  apply String.eqb_eq in Hk as ->.
  destruct (String.eqb "__proto__" k') eqn:Hk; [|done].
  apply String.eqb_eq in Hk. congruence.
Qed.

Lemma get_set_proto (o : JsObject.t) (v : string) :
  JsObject.set o "__proto__" v = o.
Proof. reflexivity. Qed.

Lemma printTable_json (rows : list Row) :
  Version.printTable rows true = JsObject.stringify2 (jsonResult rows).
Proof. reflexivity. Qed.

Lemma jsonResult_get_from (rows : list Row) (o : JsObject.t) (k : string) :
  k <> "__proto__" ->
  JsObject.get
    (foldl (fun acc '(name, value) => JsObject.set acc (slugify name) value) o rows) k
  = match last (filter (fun row : Row => slugify row.1 = k) rows) with
    | Some row => Some row.2
    | None => JsObject.get o k
    end.
Proof.
  intros Hk. revert o. induction rows as [|[name value] rows IH]; intros o; [done|].
  simpl. rewrite IH. rewrite filter_cons. simpl.
  destruct (decide (slugify name = k)) as [Heq|Hne].
  - destruct (filter _ rows) as [|row' rest] eqn:Hf; simpl.
    + rewrite get_set by done. by rewrite Heq, String.eqb_refl.
    + destruct (last (row' :: rest)) eqn:Hl; [done|].
      by apply last_None in Hl.
  - destruct (last _); [done|].
    rewrite get_set by done.
    destruct (String.eqb (slugify name) k) eqn:Hs; [|done].
    by apply String.eqb_eq in Hs.
Qed.

(** Apart from the slug [__proto__], the object maps every slug to the
    value of the last row that has it, and no other key to anything. *)
Lemma jsonResult_get (rows : list Row) (k : string) :
  k <> "__proto__" ->
  JsObject.get (jsonResult rows) k
  = snd <$> last (filter (fun row : Row => slugify row.1 = k) rows).
Proof.
  intros Hk. unfold jsonResult. rewrite jsonResult_get_from by done.
  by destruct (last _).
Qed.

Lemma jsonResult_get_proto_from (rows : list Row) (o : JsObject.t) :
  JsObject.get o "__proto__" = None ->
  JsObject.get
    (foldl (fun acc '(name, value) => JsObject.set acc (slugify name) value) o rows)
    "__proto__" = None.
Proof.
  revert o. induction rows as [|[name value] rows IH]; intros o Ho; [done|].
  simpl. apply IH. unfold JsObject.set.
  destruct (String.eqb (slugify name) "__proto__") eqn:Hs; [done|].
  rewrite get_define. by rewrite Hs.
Qed.

(** The one slug that finds no place in the object is [__proto__]: a
    row with that slug leaves no key, alone or beside other rows, in
    whatever case its label is written, while the text table shows it.
    No label of the report has that slug. *)
Lemma printTable_json_drops_proto_label :
  Version.printTable [("__proto__", "x")] true = "{}"
  /\ Version.printTable [("Tool", "1.2.3"); ("__PROTO__", "x")] true
     = Version.printTable [("Tool", "1.2.3")] true
  /\ (forall rows, JsObject.get (jsonResult rows) "__proto__" = None)
  /\ Version.printTable [("__proto__", "x")] false = "__proto__ : x".
Proof.
  split; [reflexivity|]. split; [reflexivity|]. split; [|reflexivity].
  intros rows. by apply jsonResult_get_proto_from.
Qed.

(** The labels that [parse] gives its rows are literals, the name of
    the package apart: no report has a label whose slug is
    [__proto__], unless the package itself is named so. *)
Lemma rows_slugs_not_proto (w : World) (st : ProcState) (rs : list Row) :
  slugify (packageName w) <> "__proto__" ->
  (Version.rows w st).1 = Returned rs ->
  Forall (fun row : Row => slugify row.1 <> "__proto__") rs.
Proof.
  intros Hname Hrs. apply rows_returned in Hrs
    as (e' & platform & client & qe & me & ie & fe & sp
        & _ & _ & _ & _ & _ & _ & _ & _ & ->).
  assert (Hq : slugify (Version.queryEngineLabel w) <> "__proto__").
  { unfold Version.queryEngineLabel. by case_decide; vm_compute. }
  repeat (apply Forall_app; split).
  - repeat (constructor; [simpl; first [done | by vm_compute]|]). constructor.
  - repeat (constructor; [simpl; first [done | by vm_compute]|]). constructor.
  - repeat (constructor; [simpl; first [done | by vm_compute]|]). constructor.
  - destruct (featureFlagsOf w sp); constructor; [by vm_compute|constructor].
Qed.

Lemma insertIndexed_perm (n : N) (kv : string * string)
      (l : list (N * (string * string))) :
  snd <$> JsObject.insertIndexed n kv l ≡ₚ kv :: (snd <$> l).
Proof.
  induction l as [|[m kv'] l IH]; simpl; [done|].
  destruct (n <? m)%N; simpl; [done|].
  rewrite IH. apply Permutation_swap.
Qed.

Lemma indexed_perm (o : list (string * string)) :
  snd <$> JsObject.indexed o
  ≡ₚ filter (fun kv : string * string => ~ JsObject.arrayIndex kv.1 = None) o.
Proof.
  induction o as [|kv o IH]; [done|].
  rewrite filter_cons. simpl JsObject.indexed.
  destruct (JsObject.arrayIndex kv.1) as [n|] eqn:Hn.
  - rewrite decide_True by done. by rewrite insertIndexed_perm, IH.
  - rewrite decide_False by (intros H; by apply H). done.
Qed.

(** The serialisation lists the properties of the object, each one
    once. *)
Lemma entries_perm (o : list (string * string)) : JsObject.entries o ≡ₚ o.
Proof.
  unfold JsObject.entries, JsObject.named. rewrite indexed_perm.
  rewrite (comm (++)). apply filter_app_complement.
Qed.

Lemma last_filter_Some {A} (P : A -> Prop) `{!forall x, Decision (P x)}
      (l : list A) :
  is_Some (last (filter P l)) <-> exists x, x ∈ l /\ P x.
Proof.
  split.
  - intros [x Hx]. exists x.
    assert (Hin : x ∈ filter P l).
    { apply last_Some in Hx as [l' Hl']. rewrite Hl'. set_solver. }
    by apply list_elem_of_filter in Hin as [? ?].
  - intros (x & Hin & Hx).
    destruct (last (filter P l)) eqn:Hl; [by eauto|].
    apply last_None in Hl.
    assert (Hin' : x ∈ filter P l) by (by apply list_elem_of_filter).
    rewrite Hl in Hin'. by apply elem_of_nil in Hin'.
Qed.

(** C5. In JSON mode the renderer serialises an object built from the
    rows.  Its keys are the slugs of the labels, no others: the label
    lowercased, then every run of white space collapsed to one hyphen.
    Each key has the value, unchanged, of the last row with that slug,
    so a later row with the same slug overwrites an earlier one without
    notice; and the JSON text lists the properties of that object, each
    once.  This holds for rows none of whose labels has the slug
    [__proto__], as is the case of every report [parse] builds. *)
Theorem printTable_json_object (rows : list Row) :
  Forall (fun row : Row => slugify row.1 <> "__proto__") rows ->
  Version.printTable rows true = JsObject.stringify2 (jsonResult rows)
  /\ JsObject.entries (jsonResult rows) ≡ₚ jsonResult rows
  /\ (forall k,
        is_Some (JsObject.get (jsonResult rows) k)
        <-> exists row, row ∈ rows /\ slugify row.1 = k)
  /\ (forall k,
        JsObject.get (jsonResult rows) k
        = snd <$> last (filter (fun row : Row => slugify row.1 = k) rows))
  /\ (forall s,
        allChars (fun c => negb (JsString.isWhiteSpace c)) s = true ->
        slugify s = JsString.toLowerCase s)
  /\ (forall a ws b,
        ws <> "" ->
        allChars JsString.isWhiteSpace ws = true ->
        endsInWhiteSpace false a = false ->
        startsWithWhiteSpace b = false ->
        slugify (a +:+ ws +:+ b) = slugify a +:+ "-" +:+ slugify b).
Proof.
  intros Hproto.
  assert (Hget : forall k,
    JsObject.get (jsonResult rows) k
    = snd <$> last (filter (fun row : Row => slugify row.1 = k) rows)).
  { intros k. destruct (decide (k = "__proto__")) as [->|Hk].
    - unfold jsonResult. rewrite jsonResult_get_proto_from by done.
      destruct (last _) as [row|] eqn:Hl; [|done]. exfalso.
      assert (Hs : is_Some (last (filter (fun row : Row => slugify row.1 = "__proto__")
                                         rows))) by (by rewrite Hl).
      apply last_filter_Some in Hs as (row' & Hin & Hrow').
      rewrite Forall_forall in Hproto. by apply (Hproto row' Hin).
    - by apply jsonResult_get. }
  split; [reflexivity|]. split; [apply entries_perm|].
  split; [|split; [exact Hget|split; [exact slugify_plain|exact slugify_run]]].
  intros k. rewrite Hget, <- last_filter_Some.
  by rewrite fmap_is_Some.
Qed.

Lemma printTable_json_object_witness :
  JsObject.get (jsonResult sampleReport) "query-engine-(binary)"
  = Some "3.1.0 (at ../../../opt/custom/qe, resolved by PRISMA_QUERY_ENGINE_BINARY)"
  /\ JsObject.get (jsonResult sampleReport) "Query Engine (Binary)" = None.
Proof.
  assert (Hrows : Forall (fun row : Row => slugify row.1 <> "__proto__") sampleReport).
  { unfold sampleReport. repeat (constructor; [by vm_compute|]). constructor. }
  destruct (printTable_json_object sampleReport Hrows) as (_ & _ & _ & Hget & _).
  split; rewrite Hget; reflexivity.
Defined.

(** Keys that are array indices come first, in ascending order, whatever
    the order of the rows. *)
Example printTable_json_index_keys :
  Version.printTable [("b", "1"); ("10", "2"); ("9", "3")] true
  = Version.printTable [("9", "3"); ("10", "2"); ("b", "1")] true.
Proof. reflexivity. Qed.

(** The scenario of the two rows [Tool] and [Query Engine (Binary)]. *)
Example printTable_json_scenario :
  jsonResult [("Tool", "1.2.3"); ("Query Engine (Binary)", "4.0.0 (at ./qe)")]
  = [("tool", "1.2.3"); ("query-engine-(binary)", "4.0.0 (at ./qe)")].
Proof. reflexivity. Qed.

(** * Further properties of the command *)

(** ** The command line *)

(** With [--help] the command returns the usage text at once: the
    [.env] files are not loaded, no engine is located or probed, and no
    schema is looked for, whatever state the installation is in. *)
Theorem parse_help_calls_nothing
        (w : World) (argv : list string) (st : ProcState) (args : Args) :
  arg w argv = inl args ->
  argHelp args = true ->
  Version.parse w argv st = (Returned (Output (helpText w)), st).
Proof.
  intros Harg Hhelp. unfold Version.parse. by rewrite Harg, Hhelp.
Qed.

Lemma parse_help_calls_nothing_witness :
  Version.parse Sample.brokenFmt ["--help"] Sample.start
  = (Returned (Output "Print current version of Prisma components"), Sample.start).
Proof.
  apply (parse_help_calls_nothing Sample.brokenFmt ["--help"] Sample.start
           {| argHelp := true; argJson := false |}); reflexivity.
Defined.

(** A command line that cannot be parsed is answered, not thrown: the
    result is a [HelpError] whose message is a blank line, the marker
    [!] and the parser's message, then the usage text; nothing is
    called.  A parser's message that is empty gives the plain usage
    text instead. *)
Theorem parse_argument_error
        (w : World) (argv : list string) (st : ProcState) (message : string) :
  arg w argv = inr message ->
  (message <> "" ->
   Version.parse w argv st =
     (Returned (HelpError (JsObject.newline +:+ boldRed w "!" +:+ " " +:+ message
                           +:+ JsObject.newline +:+ helpText w)), st))
  /\ (message = "" ->
      Version.parse w argv st = (Returned (Output (helpText w)), st)).
Proof.
  intros Harg. unfold Version.parse, Version.help. rewrite Harg.
  split.
  - intros Hm. apply truthy_nonempty in Hm. by rewrite Hm.
  - by intros ->.
Qed.

Lemma parse_argument_error_witness :
  Version.parse Sample.world ["--x"] Sample.start
  = (Returned (HelpError (JsObject.newline +:+ "! unknown or unexpected option: --x"
                          +:+ JsObject.newline
                          +:+ "Print current version of Prisma components")),
     Sample.start).
Proof.
  refine (proj1 (parse_argument_error Sample.world ["--x"] Sample.start
                   "unknown or unexpected option: --x" eq_refl) _).
  discriminate.
Defined.

(** ** What [resolveEngine] calls *)

(** [resolveEngine] never changes [process.env], and what it calls is
    settled by the override: with a usable override, [existsSync] and
    the probe of the override, and never the default resolver; with an
    override whose path does not exist, [existsSync], the default
    resolver and the probe of its path; without a value, the default
    resolver and the probe of its path, and never [existsSync]. *)
Theorem resolveEngine_calls (w : World) (r : EngineType) (st : ProcState) :
  let var := engineEnvVarMap w r in
  let after := (Version.resolveEngine w r st).2 in
  let fallback :=
    CallResolveBinary r ::
      match resolveBinary w r with
      | Returned d => [CallGetVersion d r]
      | Thrown _ => []
      end in
  env after = env st
  /\ (forall p, env st !! var = Some p -> p <> "" -> existsSync w p = true ->
        calls after = calls st ++ [CallExistsSync p; CallGetVersion p r])
  /\ (forall p, env st !! var = Some p -> p <> "" -> existsSync w p = false ->
        calls after = calls st ++ CallExistsSync p :: fallback)
  /\ (env st !! var = None \/ env st !! var = Some "" ->
        calls after = calls st ++ fallback).
Proof.
  intros var after fallback. subst after.
  unfold Version.resolveEngine, bind, getenv, call, ret. fold var.
  split; [|split; [|split]].
  - destruct (env st !! var) as [p|]; simpl;
      [destruct (JsString.truthy p); simpl; [destruct (existsSync w p); simpl|]|];
      repeat case_match; simplify_eq/=; done.
  - intros p -> Hp%truthy_nonempty Hx. simpl. rewrite Hp; simpl. rewrite Hx; simpl.
    destruct (getVersion w p r); simpl; by rewrite <- (assoc_L (++)).
  - intros p -> Hp%truthy_nonempty Hx. simpl. rewrite Hp; simpl. rewrite Hx; simpl.
    subst fallback.
    destruct (resolveBinary w r) as [d|]; simpl; [|by rewrite <- (assoc_L (++))].
    destruct (getVersion w d r); simpl; by rewrite <- !(assoc_L (++)).
  - subst fallback. intros [-> | ->]; simpl;
      (destruct (resolveBinary w r) as [d|]; simpl; [|done];
       destruct (getVersion w d r); simpl; by rewrite <- !(assoc_L (++))).
Qed.

Lemma resolveEngine_calls_witness :
  calls (Version.resolveEngine Sample.world queryEngine Sample.start).2
  = [CallExistsSync "/opt/custom/qe"; CallGetVersion "/opt/custom/qe" queryEngine].
Proof.
  refine (proj1 (proj2 (resolveEngine_calls Sample.world queryEngine Sample.start))
                "/opt/custom/qe" eq_refl _ eq_refl).
  discriminate.
Defined.

Ltac absent_call :=
  let Hin := fresh "Hin" in
  intros Hin;
  repeat (apply elem_of_cons in Hin as [Hin|Hin]; [discriminate Hin|]);
  by apply elem_of_nil in Hin.

(** When no override is usable and the default resolver fails, the
    failure is the method's: [resolveEngine] throws what the resolver
    threw, and probes nothing. *)
Theorem resolveEngine_default_failure
        (w : World) (r : EngineType) (st : ProcState) (x : exn) :
  (forall p, env st !! engineEnvVarMap w r = Some p ->
             p <> "" -> existsSync w p = false) ->
  resolveBinary w r = Thrown x ->
  (Version.resolveEngine w r st).1 = Thrown x
  /\ forall p r', CallGetVersion p r' ∉ engineCalls w (env st) r.
Proof.
  intros Hno Hx. rewrite resolveEngine_run. simpl.
  split.
  - rewrite engineInfoOf_default.
    + unfold defaultEngine. by rewrite Hx.
    + intros p He Ht. apply truthy_nonempty in Ht. eauto.
  - intros p r'. unfold engineCalls, Version.resolveEngine, bind, getenv, call, ret.
    simpl. destruct (env st !! engineEnvVarMap w r) as [q|] eqn:He; simpl.
    + destruct (JsString.truthy q) eqn:Ht; simpl.
      * rewrite (Hno q eq_refl) by (by apply truthy_nonempty). simpl.
        rewrite Hx. simpl. absent_call.
      * rewrite Hx. simpl. absent_call.
    + rewrite Hx. simpl. absent_call.
Qed.

Lemma resolveEngine_default_failure_witness :
  (Version.resolveEngine Scenario.missingFmt prismaFmt Sample.start).1
  = Thrown "Could not find prisma-fmt".
Proof.
  refine (proj1 (resolveEngine_default_failure
                   Scenario.missingFmt prismaFmt Sample.start
                   "Could not find prisma-fmt" _ eq_refl)).
  intros p Hp. vm_compute in Hp. discriminate Hp.
Defined.

(** ** The course of [parse] *)



(** The engines are resolved in the order introspection, migration,
    query, format, which is not the order of their rows, and the first
    one that fails decides what [parse] throws: a failure of a later
    engine is not even reached. *)
Theorem parse_first_failure
        (w : World) (argv : list string) (st : ProcState) (args : Args)
        (e' : gmap string string) (platform : string) :
  arg w argv = inl args ->
  argHelp args = false ->
  loadEnvFile w (env st) = Returned e' ->
  getPlatform w = Returned platform ->
  (forall x,
      engineInfoOf w e' introspectionEngine = Thrown x ->
      (Version.parse w argv st).1 = Thrown x
      /\ calls (Version.parse w argv st).2 =
         calls st ++ [CallLoadEnvFile; CallGetPlatform]
           ++ engineCalls w e' introspectionEngine)
  /\ (forall ie x,
      engineInfoOf w e' introspectionEngine = Returned ie ->
      engineInfoOf w e' migrationEngine = Thrown x ->
      (Version.parse w argv st).1 = Thrown x)
  /\ (forall ie me x,
      engineInfoOf w e' introspectionEngine = Returned ie ->
      engineInfoOf w e' migrationEngine = Returned me ->
      engineInfoOf w e' (getCliQueryEngineType w) = Thrown x ->
      (Version.parse w argv st).1 = Thrown x)
  /\ (forall ie me qe x,
      engineInfoOf w e' introspectionEngine = Returned ie ->
      engineInfoOf w e' migrationEngine = Returned me ->
      engineInfoOf w e' (getCliQueryEngineType w) = Returned qe ->
      engineInfoOf w e' prismaFmt = Thrown x ->
      (Version.parse w argv st).1 = Thrown x).
Proof.
  intros Harg Hhelp Hload Hplatform.
  unfold Version.parse. rewrite Harg, Hhelp.
  unfold Version.rows, Version.loadEnv, bind, call, setenv. simpl.
  rewrite Hload. simpl. rewrite Hplatform. simpl.
  rewrite resolveEngine_run. simpl.
  split; [|split; [|split]].
  - intros x Hie. rewrite Hie. simpl. split; [done|].
    by rewrite <- !(assoc_L (++)).
  - intros ie x Hie Hme. rewrite Hie. simpl.
    rewrite resolveEngine_run. simpl. by rewrite Hme.
  - intros ie me x Hie Hme Hqe. rewrite Hie. simpl.
    rewrite resolveEngine_run. simpl. rewrite Hme. simpl.
    rewrite resolveEngine_run. simpl. by rewrite Hqe.
  - intros ie me qe x Hie Hme Hqe Hfe. rewrite Hie. simpl.
    rewrite resolveEngine_run. simpl. rewrite Hme. simpl.
    rewrite resolveEngine_run. simpl. rewrite Hqe. simpl.
    rewrite resolveEngine_run. simpl. by rewrite Hfe.
Qed.

Lemma parse_first_failure_witness :
  (Version.parse Scenario.missingTwo [] Sample.start).1
  = Thrown "Could not find introspection-engine".
Proof.
  refine (proj1 (proj1 (parse_first_failure Scenario.missingTwo [] Sample.start
                   {| argHelp := false; argJson := false |}
                   (env Sample.start) "debian-openssl-1.1.x"
                   eq_refl eq_refl eq_refl eq_refl)
                 "Could not find introspection-engine" _)).
  vm_compute. reflexivity.
Defined.

(** A run of [parse] that returns a report has made these calls, in
    this order: the [.env] loader and the platform; the calls of the
    four engines, introspection, migration, query and format; the
    client version and the schema path; the calls of the feature-flag
    reader.  It leaves in [process.env] what the loader returned. *)
Theorem parse_calls_in_order
        (w : World) (argv : list string) (st : ProcState) (args : Args)
        (out : ParseResult) :
  arg w argv = inl args ->
  argHelp args = false ->
  (Version.parse w argv st).1 = Returned out ->
  exists e' sp,
    loadEnvFile w (env st) = Returned e'
    /\ getSchemaPath w = Returned sp
    /\ env (Version.parse w argv st).2 = e'
    /\ calls (Version.parse w argv st).2 =
       calls st ++ [CallLoadEnvFile; CallGetPlatform]
         ++ engineCalls w e' introspectionEngine
         ++ engineCalls w e' migrationEngine
         ++ engineCalls w e' (getCliQueryEngineType w)
         ++ engineCalls w e' prismaFmt
         ++ [CallGetClientVersion; CallGetSchemaPath]
         ++ featureFlagCalls w sp.
Proof.
  intros Harg Hhelp. unfold Version.parse. rewrite Harg, Hhelp.
  unfold Version.rows, Version.loadEnv, bind, call, setenv. simpl.
  destruct (loadEnvFile w (env st)) as [e'|]; simpl; [|done].
  destruct (getPlatform w) as [platform|]; simpl; [|done].
  rewrite resolveEngine_run; simpl.
  destruct (engineInfoOf w e' introspectionEngine) as [ie|]; simpl; [|done].
  rewrite resolveEngine_run; simpl.
  destruct (engineInfoOf w e' migrationEngine) as [me|]; simpl; [|done].
  rewrite resolveEngine_run; simpl.
  destruct (engineInfoOf w e' (getCliQueryEngineType w)) as [qe|]; simpl; [|done].
  rewrite resolveEngine_run; simpl.
  destruct (engineInfoOf w e' prismaFmt) as [fe|]; simpl; [|done].
  destruct (getInstalledPrismaClientVersion w) as [client|]; simpl; [|done].
  destruct (getSchemaPath w) as [sp|]; simpl; [|done].
  rewrite getFeatureFlags_run; simpl.
  intros _. exists e', sp. split; [done|]. split; [done|].
  destruct (0 <? length (featureFlagsOf w sp))%nat; simpl;
    (split; [done|]); by rewrite <- !(assoc_L (++)).
Qed.

Lemma parse_calls_in_order_witness :
  calls (Version.parse Sample.world [] Sample.start).2 =
  [ CallLoadEnvFile; CallGetPlatform;
    CallResolveBinary introspectionEngine;
    CallGetVersion "/usr/local/bin/introspection-engine" introspectionEngine;
    CallResolveBinary migrationEngine;
    CallGetVersion "/usr/local/bin/migration-engine" migrationEngine;
    CallExistsSync "/opt/custom/qe";
    CallGetVersion "/opt/custom/qe" queryEngine;
    CallResolveBinary prismaFmt;
    CallGetVersion "/usr/local/bin/prisma-fmt" prismaFmt;
    CallGetClientVersion; CallGetSchemaPath; CallGetSchema;
    CallGetConfig "generator client { }" ].
Proof.
  destruct (parse_calls_in_order Sample.world [] Sample.start
              {| argHelp := false; argJson := false |} _ eq_refl eq_refl eq_refl)
    as (e' & sp & He' & Hsp & _ & Hcalls).
  vm_compute in He'. injection He' as <-.
  vm_compute in Hsp. injection Hsp as <-.
  rewrite Hcalls. vm_compute. reflexivity.
Defined.

(** A schema that cannot be read, or a configuration that cannot be
    parsed, does not cost the report: when every other collaborator
    answers, [parse] returns the table of the nine fixed rows, without
    a feature-flags row. *)
Theorem parse_survives_config_failure
        (w : World) (argv : list string) (st : ProcState) (args : Args)
        (e' : gmap string string) (platform : string) (client sp : option string)
        (qe me ie fe : EngineInfo) (x : exn) :
  arg w argv = inl args ->
  argHelp args = false ->
  (getSchema w = Thrown x
   \/ exists d, getSchema w = Returned d /\ getConfig w d = Thrown x) ->
  loadEnvFile w (env st) = Returned e' ->
  getPlatform w = Returned platform ->
  engineInfoOf w e' introspectionEngine = Returned ie ->
  engineInfoOf w e' migrationEngine = Returned me ->
  engineInfoOf w e' (getCliQueryEngineType w) = Returned qe ->
  engineInfoOf w e' prismaFmt = Returned fe ->
  getInstalledPrismaClientVersion w = Returned client ->
  getSchemaPath w = Returned sp ->
  (Version.parse w argv st).1 =
    Returned (Output (Version.printTable
      [ (packageName w, packageVersion w);
        ("@prisma/client", default "Not found" client);
        ("Current platform", platform);
        (Version.queryEngineLabel w, Version.printEngineInfo w qe);
        ("Migration Engine", Version.printEngineInfo w me);
        ("Introspection Engine", Version.printEngineInfo w ie);
        ("Format Engine", Version.printEngineInfo w fe);
        ("Default Engines Hash", pop (splitDot (enginesDependency w)));
        ("Studio", studioDependency w) ]
      (argJson args))).
Proof.
  intros Harg Hhelp Hfail Hload Hplatform Hie Hme Hqe Hfe Hclient Hsp.
  assert (Hflags : featureFlagsOf w sp = []).
  { unfold featureFlagsOf, loadedGenerators.
    destruct sp as [p|]; [|done]. destruct (JsString.truthy p); [|done].
    destruct Hfail as [-> | (d & -> & ->)]; done. }
  unfold Version.parse. rewrite Harg, Hhelp. unfold bind at 1.
  destruct (Version.rows w st) as [o s] eqn:Hrows.
  assert (Ho : (Version.rows w st).1 = o) by (by rewrite Hrows).
  destruct (rows_returned w st
    ([ (packageName w, packageVersion w);
       ("@prisma/client", default "Not found" client);
       ("Current platform", platform) ]
     ++ [ (Version.queryEngineLabel w, Version.printEngineInfo w qe);
          ("Migration Engine", Version.printEngineInfo w me);
          ("Introspection Engine", Version.printEngineInfo w ie);
          ("Format Engine", Version.printEngineInfo w fe) ]
     ++ [ ("Default Engines Hash", pop (splitDot (enginesDependency w)));
          ("Studio", studioDependency w) ]
     ++ [])) as [_ Hback].
  rewrite Ho in Hback. rewrite Hback; [done|].
  exists e', platform, client, qe, me, ie, fe, sp.
  repeat (split; [done|]). by rewrite Hflags.
Qed.

Lemma parse_survives_config_failure_witness :
  (Version.parse Scenario.invalidSchema [] Sample.start).1 =
  Returned (Output (Version.printTable
    [ ("prisma", "3.8.0");
      ("@prisma/client", "Not found");
      ("Current platform", "debian-openssl-1.1.x");
      ("Query Engine (Binary)",
       "3.1.0 (at ../../../opt/custom/qe, resolved by PRISMA_QUERY_ENGINE_BINARY)");
      ("Migration Engine", "4.0.0 (at migration-engine)");
      ("Introspection Engine", "4.0.0 (at introspection-engine)");
      ("Format Engine", "4.0.0 (at prisma-fmt)");
      ("Default Engines Hash", "34df67547cf5598f5a6cd3eb45f14ee70c3fb86f");
      ("Studio", "0.452.0") ] false)).
Proof.
  refine (parse_survives_config_failure Scenario.invalidSchema [] Sample.start
            {| argHelp := false; argJson := false |}
            (env Sample.start) "debian-openssl-1.1.x" None (Some Sample.schemaFile)
            {| path := "/opt/custom/qe"; version := "3.1.0";
               fromEnvVar := Some "PRISMA_QUERY_ENGINE_BINARY" |}
            {| path := "/usr/local/bin/migration-engine"; version := "4.0.0";
               fromEnvVar := None |}
            {| path := "/usr/local/bin/introspection-engine"; version := "4.0.0";
               fromEnvVar := None |}
            {| path := "/usr/local/bin/prisma-fmt"; version := "4.0.0";
               fromEnvVar := None |}
            "Schema parsing error"
            eq_refl eq_refl _ eq_refl eq_refl _ _ _ _ eq_refl eq_refl).
  - right. exists "generator client {". split; reflexivity.
  - vm_compute. reflexivity.
  - vm_compute. reflexivity.
  - vm_compute. reflexivity.
  - vm_compute. reflexivity.
Defined.

(** An override that comes from the [.env] files counts like one of
    the process's own environment: the engines are resolved in the
    environment the loader returns.  When that environment gives the
    query engine's variable an existing path, the fourth row of a
    returned report shows the version probed at that path, the path
    relative to the working directory, and the variable's name. *)
Theorem env_file_override_shown
        (w : World) (st : ProcState) (rs : list Row)
        (e' : gmap string string) (p : string) :
  let r := getCliQueryEngineType w in
  let var := engineEnvVarMap w r in
  (Version.rows w st).1 = Returned rs ->
  loadEnvFile w (env st) = Returned e' ->
  e' !! var = Some p ->
  p <> "" ->
  existsSync w p = true ->
  var <> "" ->
  exists v,
    getVersion w p r = Returned v
    /\ rs !! 3%nat =
       Some (Version.queryEngineLabel w,
             v +:+ " (at " +:+ relative w (cwd w) p
               +:+ ", resolved by " +:+ var +:+ ")").
Proof.
  intros r var Hrs Hload He Hp Hx Hvar.
  apply rows_returned in Hrs
    as (e'' & platform & client & qe & me & ie & fe & sp
        & Hload' & _ & _ & _ & Hqe & _ & _ & _ & ->).
  rewrite Hload in Hload'. injection Hload' as <-.
  destruct (engineInfoOf_override w e' r p He) as [Hi _];
    [by apply truthy_nonempty | done |].
  fold r in Hqe. rewrite Hi in Hqe. unfold probed in Hqe.
  destruct (getVersion w p r) as [v|]; [|done].
  injection Hqe as <-. exists v. split; [done|].
  simpl. unfold Version.printEngineInfo. simpl. fold var.
  apply truthy_nonempty in Hvar. rewrite Hvar.
  by rewrite append_assoc.
Qed.

Lemma env_file_override_shown_witness :
  exists rs,
    (Version.rows Scenario.envFile Scenario.plain).1 = Returned rs
    /\ rs !! 3%nat =
       Some ("Query Engine (Binary)",
             "3.1.0 (at ../../../opt/custom/qe, resolved by PRISMA_QUERY_ENGINE_BINARY)").
Proof.
  eexists. split; [vm_compute; reflexivity|].
  destruct (env_file_override_shown Scenario.envFile Scenario.plain _
              (<[ "PRISMA_QUERY_ENGINE_BINARY" := "/opt/custom/qe" ]> ∅)
              "/opt/custom/qe" eq_refl eq_refl eq_refl)
    as (v & Hv & Hrow); [discriminate | reflexivity | discriminate |].
  vm_compute in Hv. injection Hv as <-. exact Hrow.
Defined.

(** ** What [getFeatureFlags] calls *)

(** With a schema path, [getFeatureFlags] reads the schema and hands
    the text it read, and no other, to the configuration parser; the
    parser is not called when the schema cannot be read.
    [process.env] is left as it is. *)
Theorem getFeatureFlags_calls
        (w : World) (p : string) (st : ProcState) :
  p <> "" ->
  let after := (Version.getFeatureFlags w (Some p) st).2 in
  env after = env st
  /\ calls after =
     calls st ++ CallGetSchema ::
       match getSchema w with
       | Returned d => [CallGetConfig d]
       | Thrown _ => []
       end.
Proof.
  intros Hp after. subst after. rewrite getFeatureFlags_run. simpl.
  apply truthy_nonempty in Hp. by rewrite Hp.
Qed.

Lemma getFeatureFlags_calls_witness :
  calls (Version.getFeatureFlags Sample.brokenSchema
           (Some Sample.schemaFile) Sample.start).2
  = [CallGetSchema].
Proof.
  refine (proj2 (getFeatureFlags_calls Sample.brokenSchema Sample.schemaFile
                   Sample.start _)).
  discriminate.
Defined.

(** ** More on slugs *)

Lemma lowerChar_idempotent (c : ascii) :
  JsString.lowerChar (JsString.lowerChar c) = JsString.lowerChar c.
Proof. destruct c as [[] [] [] [] [] [] [] []]; reflexivity. Qed.

Lemma append_hyphen (s : string) : "-" +:+ s = String "-" s.
Proof. reflexivity. Qed.

Lemma replaceRuns_no_white_space (inRun : bool) (s : string) :
  allChars notWhiteSpace (JsString.replaceRuns "-" inRun s) = true.
Proof.
  revert inRun. induction s as [|c s IH]; intros inRun; simpl; [done|].
  destruct (JsString.isWhiteSpace c) eqn:Hc.
  - destruct inRun; [apply IH|].
    rewrite append_hyphen. simpl. apply IH.
  - simpl. unfold notWhiteSpace at 1. rewrite Hc. simpl. apply IH.
Qed.

(** A slug holds no white space. *)
Theorem slugify_no_white_space (s : string) :
  allChars notWhiteSpace (slugify s) = true.
Proof. apply replaceRuns_no_white_space. Qed.

Lemma replaceRuns_lowered (inRun : bool) (s : string) :
  JsString.toLowerCase (JsString.replaceRuns "-" inRun (JsString.toLowerCase s))
  = JsString.replaceRuns "-" inRun (JsString.toLowerCase s).
Proof.
  revert inRun. induction s as [|c s IH]; intros inRun; simpl; [done|].
  destruct (JsString.isWhiteSpace (JsString.lowerChar c)).
  - destruct inRun; [apply IH|].
    rewrite append_hyphen. simpl. by rewrite IH.
  - simpl. by rewrite lowerChar_idempotent, IH.
Qed.

Lemma replaceRuns_plain (s : string) :
  allChars notWhiteSpace s = true ->
  JsString.replaceRuns "-" false s = s.
Proof.
  induction s as [|c s IH]; simpl; [done|].
  intros [Hc Hs]%andb_prop. unfold notWhiteSpace in Hc.
  apply negb_true_iff in Hc. rewrite Hc. by rewrite IH.
Qed.

(** Slugifying a slug changes nothing: a key of the JSON report can be
    looked up by the key itself. *)
Theorem slugify_idempotent (s : string) : slugify (slugify s) = slugify s.
Proof.
  unfold slugify at 1. unfold JsString.replaceWhiteSpaceRuns.
  assert (Hlow : JsString.toLowerCase (slugify s) = slugify s)
    by apply replaceRuns_lowered.
  rewrite Hlow. apply replaceRuns_plain, replaceRuns_no_white_space.
Qed.




(** ** The engines hash *)

Lemma splitDot_nonempty (s : string) : splitDot s <> [].
Proof.
  induction s as [|c s IH]; simpl; [done|].
  destruct (Ascii.eqb c "."); [done|]. by destruct (splitDot s).
Qed.

Lemma join_cons_cons (sep x y : string) (l : list string) :
  JsString.join sep (x :: y :: l) = x +:+ sep +:+ JsString.join sep (y :: l).
Proof. reflexivity. Qed.

Lemma join_splitDot (s : string) : JsString.join "." (splitDot s) = s.
Proof.
  induction s as [|c s IH]; [done|]. simpl.
  destruct (Ascii.eqb c ".") eqn:Hc.
  - apply Ascii.eqb_eq in Hc as ->.
    pose proof (splitDot_nonempty s) as Hne.
    destruct (splitDot s) as [|y l]; [done|].
    rewrite join_cons_cons, IH. reflexivity.
  - pose proof (splitDot_nonempty s) as Hne.
    destruct (splitDot s) as [|y l]; [done|].
    destruct l as [|z l].
    + simpl in *. by rewrite IH.
    + rewrite join_cons_cons in *. rewrite append_cons. by rewrite IH.
Qed.

(** [split('.')] loses nothing: there is at least one piece, and
    joining the pieces with dots gives the string back. *)
Theorem splitDot_join (s : string) :
  splitDot s <> [] /\ JsString.join "." (splitDot s) = s.
Proof. split; [apply splitDot_nonempty | apply join_splitDot]. Qed.

Lemma splitDot_no_dot (s : string) :
  Forall (fun piece => allChars notDot piece = true) (splitDot s).
Proof.
  induction s as [|c s IH]; simpl; [by constructor|].
  destruct (Ascii.eqb c ".") eqn:Hc.
  - by constructor.
  - destruct (splitDot s) as [|y l]; [constructor; [|done]|].
    + simpl. unfold notDot. by rewrite Hc.
    + inversion IH as [|? ? Hy Hl]; subst. constructor; [|done].
      simpl. unfold notDot at 1. by rewrite Hc.
Qed.

Lemma join_snoc (sep : string) (l : list string) (x y : string) :
  JsString.join sep ((x :: l) ++ [y]) = JsString.join sep (x :: l) +:+ sep +:+ y.
Proof.
  revert x. induction l as [|z l IH]; intros x; [done|].
  change ((x :: z :: l) ++ [y]) with (x :: ((z :: l) ++ [y])).
  change ((z :: l) ++ [y]) with (z :: (l ++ [y])) at 1.
  rewrite !join_cons_cons.
  change (z :: (l ++ [y])) with ((z :: l) ++ [y]).
  rewrite IH. by rewrite !append_assoc.
Qed.

(** The value of the row [Default Engines Hash] is what follows the
    last dot of the version of [@prisma/engines]: it holds no dot, and
    the version is that value, or something, a dot, and that value. *)
Theorem pop_splitDot_last_segment (s : string) :
  let h := pop (splitDot s) in
  allChars notDot h = true
  /\ (s = h \/ exists a, s = a +:+ "." +:+ h).
Proof.
  intros h. subst h. unfold pop.
  pose proof (splitDot_nonempty s) as Hne.
  pose proof (splitDot_no_dot s) as Hdot.
  pose proof (join_splitDot s) as Hjoin.
  destruct (exists_last Hne) as (init & h & Heq).
  rewrite Heq in *. rewrite List.last_last.
  split.
  - apply Forall_app in Hdot as [_ Hh]. by inversion Hh.
  - destruct init as [|x init].
    + left. by rewrite <- Hjoin.
    + right. exists (JsString.join "." (x :: init)).
      by rewrite <- Hjoin, join_snoc.
Qed.

(** ** More on the JSON report *)

Lemma rows_slugs_not_proto_witness :
  Forall (fun row : Row => slugify row.1 <> "__proto__") sampleReport.
Proof.
  apply (rows_slugs_not_proto Sample.world Sample.start sampleReport).
  - vm_compute. discriminate.
  - vm_compute. reflexivity.
Defined.

Lemma define_fresh (o : list (string * string)) (k v : string) :
  k ∉ o.*1 -> JsObject.define o k v = o ++ [(k, v)].
Proof.
  induction o as [|[k' v'] o IH]; intros Hk; simpl; [done|].
  rewrite fmap_cons in Hk. apply not_elem_of_cons in Hk as [Hne Hk].
  destruct (String.eqb k' k) eqn:He.
  - apply String.eqb_eq in He. simpl in Hne. congruence.
  - by rewrite IH.
Qed.

Lemma jsonResult_from_distinct (rows : list Row) (o : list (string * string)) :
  NoDup (o.*1 ++ (slugify ∘ fst <$> rows)) ->
  Forall (fun row : Row => slugify row.1 <> "__proto__") rows ->
  foldl (fun acc '(name, value) => JsObject.set acc (slugify name) value) o rows
  = o ++ ((fun row : Row => (slugify row.1, row.2)) <$> rows).
Proof.
  revert o. induction rows as [|[name value] rows IH]; intros o Hnd Hproto.
  - simpl. by rewrite (right_id_L [] (++)).
  - inversion Hproto as [|? ? Hn Hrest]; subst. simpl in Hn.
    simpl. unfold JsObject.set.
    destruct (String.eqb (slugify name) "__proto__") eqn:He;
      [by apply String.eqb_eq in He|].
    rewrite fmap_cons in Hnd. simpl in Hnd.
    rewrite define_fresh.
    + rewrite IH; [by rewrite <- (assoc_L (++))| |done].
      rewrite fmap_app. simpl. rewrite <- (assoc_L (++)). exact Hnd.
    + apply NoDup_app in Hnd as (_ & Hdisj & _). intros Hin.
      apply (Hdisj _ Hin). by left.
Qed.

Lemma entries_named (o : list (string * string)) :
  Forall (fun kv : string * string => JsObject.arrayIndex kv.1 = None) o ->
  JsObject.entries o = o.
Proof.
  intros Hall. unfold JsObject.entries, JsObject.named.
  assert (Hidx : JsObject.indexed o = []).
  { induction Hall as [|kv o Hkv _ IH]; simpl; [done|]. by rewrite Hkv. }
  rewrite Hidx. simpl. clear Hidx.
  change (filter (fun kv : string * string => JsObject.arrayIndex kv.1 = None) o = o).
  induction Hall as [|kv o Hkv _ IH]; [done|].
  rewrite filter_cons, decide_True by done. by rewrite IH.
Qed.

Lemma stringify2_nonempty (o : list (string * string)) :
  JsObject.entries o <> [] ->
  JsObject.stringify2 o =
    "{" +:+ JsObject.newline
    +:+ JsString.join ("," +:+ JsObject.newline)
          (JsObject.member "  " <$> JsObject.entries o)
    +:+ JsObject.newline +:+ "}".
Proof.
  intros Hne. unfold JsObject.stringify2. by destruct (JsObject.entries o).
Qed.

(** The whole JSON text.  For rows whose slugs are pairwise distinct,
    none of them [__proto__] and none an array index, the text is an
    opening brace, one line per row in the order of the rows, each
    indented by two spaces and made of the quoted slug, a colon, a
    space and the quoted value, the lines separated by commas, and a
    closing brace on its own line. *)
Theorem printTable_json_text (rows : list Row) :
  rows <> [] ->
  NoDup (slugify ∘ fst <$> rows) ->
  Forall (fun row : Row =>
            slugify row.1 <> "__proto__"
            /\ JsObject.arrayIndex (slugify row.1) = None) rows ->
  Version.printTable rows true =
    "{" +:+ JsObject.newline
    +:+ JsString.join ("," +:+ JsObject.newline)
          ((fun row : Row =>
              "  " +:+ JsString.quoteJSON (slugify row.1) +:+ ": "
                +:+ JsString.quoteJSON row.2) <$> rows)
    +:+ JsObject.newline +:+ "}".
Proof.
  intros Hne Hnd Hall.
  assert (Hobj : jsonResult rows = (fun row : Row => (slugify row.1, row.2)) <$> rows).
  { unfold jsonResult. rewrite jsonResult_from_distinct; [done|done|].
    eapply Forall_impl; [exact Hall|]. by intros row [? ?]. }
  assert (Hent : JsObject.entries (jsonResult rows) = jsonResult rows).
  { rewrite Hobj. apply entries_named, Forall_fmap.
    eapply Forall_impl; [exact Hall|]. by intros row [? ?]. }
  rewrite printTable_json, stringify2_nonempty; rewrite Hent, Hobj.
  - by rewrite <- list_fmap_compose.
  - by destruct rows.
Qed.

Lemma printTable_json_text_witness :
  Version.printTable
    [("Tool", "1.2.3"); ("Query Engine (Binary)", "4.0.0 (at ./qe)")] true
  = "{" +:+ JsObject.newline
    +:+ "  " +:+ JsString.quoteJSON "tool" +:+ ": " +:+ JsString.quoteJSON "1.2.3"
    +:+ "," +:+ JsObject.newline
    +:+ "  " +:+ JsString.quoteJSON "query-engine-(binary)" +:+ ": "
    +:+ JsString.quoteJSON "4.0.0 (at ./qe)"
    +:+ JsObject.newline +:+ "}".
Proof.
  rewrite printTable_json_text.
  - reflexivity.
  - discriminate.
  - vm_compute. apply NoDup_cons_2; [|apply NoDup_singleton].
    intros Hin. apply list_elem_of_singleton in Hin. discriminate Hin.
  - repeat constructor; by vm_compute.
Defined.

Lemma define_keys (o : list (string * string)) (k v : string) :
  (fst <$> JsObject.define o k v) = (fst <$> o)
  \/ ((k ∉ (fst <$> o))
      /\ (fst <$> JsObject.define o k v) = (fst <$> o) ++ [k]).
Proof.
  induction o as [|[k' v'] o IH].
  - right. split; [apply not_elem_of_nil|done].
  - change (JsObject.define ((k', v') :: o) k v)
      with (if String.eqb k' k then (k', v) :: o
            else (k', v') :: JsObject.define o k v).
    destruct (String.eqb k' k) eqn:He; [by left|].
    rewrite !fmap_cons. simpl fst.
    destruct IH as [IH | [Hk IH]]; rewrite IH; [by left|].
    right. split; [|done]. apply not_elem_of_cons. split; [|done].
    intros ->. by rewrite String.eqb_refl in He.
Qed.

(** The object never holds two properties with the same key, never
    the key [__proto__], and no key that is not the slug of a row. *)
Theorem jsonResult_keys_unique (rows : list Row) :
  NoDup (jsonResult rows).*1
  /\ ("__proto__" ∉ (jsonResult rows).*1)
  /\ forall k, k ∈ (jsonResult rows).*1 ->
       exists row, row ∈ rows /\ slugify row.1 = k.
Proof.
  unfold jsonResult.
  assert (Hgen : forall (o : list (string * string)),
    NoDup o.*1 -> "__proto__" ∉ o.*1 ->
    let o' := foldl (fun acc '(name, value) => JsObject.set acc (slugify name) value)
                    o rows in
    NoDup o'.*1 /\ ("__proto__" ∉ o'.*1)
    /\ forall k, k ∈ o'.*1 -> k ∈ o.*1 \/ exists row, row ∈ rows /\ slugify row.1 = k).
  { induction rows as [|[name value] rows IH]; intros o Hnd Hp; simpl.
    - split; [done|]. split; [done|]. by left.
    - assert (Hstep : NoDup (JsObject.set o (slugify name) value).*1
                      /\ ("__proto__" ∉ (JsObject.set o (slugify name) value).*1)
                      /\ forall k, k ∈ (JsObject.set o (slugify name) value).*1 ->
                                   k ∈ o.*1 \/ k = slugify name).
      { unfold JsObject.set.
        destruct (String.eqb (slugify name) "__proto__") eqn:He.
        - split; [done|]. split; [done|]. by left.
        - destruct (define_keys o (slugify name) value) as [-> | [Hk ->]].
          + split; [done|]. split; [done|]. by left.
          + split; [|split].
            * apply NoDup_app. split; [done|]. split; [|apply NoDup_singleton].
              intros k Hin Hin'. apply list_elem_of_singleton in Hin'. by subst.
            * intros Hin. apply elem_of_app in Hin as [Hin|Hin]; [done|].
              apply list_elem_of_singleton in Hin.
              rewrite <- Hin, String.eqb_refl in He. done.
            * intros k Hin. apply elem_of_app in Hin as [Hin|Hin]; [by left|].
              apply list_elem_of_singleton in Hin. by right. }
      destruct Hstep as (Hnd' & Hp' & Hkeys).
      destruct (IH _ Hnd' Hp') as (H1 & H2 & H3).
      split; [done|]. split; [done|].
      intros k Hin. destruct (H3 k Hin) as [Hin'|(row & Hrow & Hk)].
      + destruct (Hkeys k Hin') as [?| ->]; [by left|].
        right. exists (name, value). split; [by left|done].
      + right. exists row. split; [by right|done]. }
  destruct (Hgen [] (NoDup_nil_2) (not_elem_of_nil _)) as (H1 & H2 & H3).
  split; [done|]. split; [done|].
  intros k Hin. destruct (H3 k Hin) as [Hin'|?]; [|done].
  by apply elem_of_nil in Hin'.
Qed.


